(** * emdp.gridworld: the four-room grid world MDP

    A shallow embedding of [emdp/gridworld/__init__.py] (class
    [GridWorldMDP]).  NumPy arrays are dense lists of rationals, Python
    exceptions are values of an error monad, the object is a record whose
    methods pass the state explicitly.

    The modules [txt_utilities], [builder_tools], [helper_utilities],
    [emdp.actions] and the base class [emdp.common.MDP] are imported by the
    file but are not part of the sources at hand; they are modelled from
    the natural-language specification and marked as such. *)

From Stdlib Require Import ZArith QArith Qabs Qround Lia Lqa String Ascii.
From stdpp Require Import base list numbers.

Open Scope nat_scope.

(** ** Exceptions *)

Inductive error : Type :=
| OutOfBoundsError
| MalformedMapError
| InvalidWallError
| AmbiguousRewardError
| UnsupportedActionError
| IndexError
| ValueError
| TypeError
| ZeroDivisionError.

Inductive result (A : Type) : Type :=
| Ok (a : A)
| Raise (e : error).
Arguments Ok {A} a.
Arguments Raise {A} e.

#[global] Instance result_ret : MRet result := fun A a => Ok a.
#[global] Instance result_bind : MBind result := fun A B f r =>
  match r with
  | Ok a => f a
  | Raise e => Raise e
  end.

(** A Python [for] loop whose body may raise, threading the mutated object. *)
Fixpoint for_each {A S : Type} (body : A -> S -> result S) (xs : list A) (st : S)
  : result S :=
  match xs with
  | [] => Ok st
  | x :: xs' => st' ← body x st; for_each body xs' st'
  end.

(** A list comprehension whose element expression may raise. *)
Fixpoint collect {A B : Type} (f : A -> result B) (xs : list A) : result (list B) :=
  match xs with
  | [] => Ok []
  | x :: xs' => y ← f x; ys ← collect f xs'; Ok (y :: ys)
  end.

(** ** Arrays *)

Abbreviation vector := (list Q) (only parsing).
Abbreviation matrix := (list (list Q)) (only parsing).
Abbreviation tensor := (list (list (list Q))) (only parsing).

(** [np.zeros(n)] *)
Definition np_zeros (n : nat) : list Q := replicate n 0%Q.

(** [v.sum()] *)
Definition np_sum (v : list Q) : Q := foldr Qplus 0%Q v.

(** [v.nonzero()] for a one-dimensional array: the indices of the entries
    different from zero, in increasing order. *)
Definition np_nonzero (v : list Q) : list nat :=
  omap (fun '(i, x) => if Qeq_bool x 0 then None else Some i)
       (imap (fun i x => (i, x)) v).

Fixpoint argmax_from (i best_i : nat) (best : Q) (v : list Q) : nat :=
  match v with
  | [] => best_i
  | x :: v' =>
      if Qle_bool x best then argmax_from (S i) best_i best v'
      else argmax_from (S i) i x v'
  end.

(** [v.argmax()]: the first index of a maximal entry; NumPy raises
    [ValueError] on an empty array. *)
Definition np_argmax (v : list Q) : result nat :=
  match v with
  | [] => Raise ValueError
  | x :: v' => Ok (argmax_from 1 0 x v')
  end.

(** [v[idxs] = x] with a list of indices; an index past the end raises
    [IndexError]. *)
Definition np_set_indices (idxs : list nat) (x : Q) (v : list Q) : result (list Q) :=
  for_each (fun i v => if i <? length v then Ok (<[i := x]> v) else Raise IndexError)
           idxs v.

(** Entry [P[s, a, t]] of a tensor; outside the shape the model reads 0. *)
Definition cell (P : tensor) (s a t : nat) : Q :=
  default 0%Q (row ← (m ← P !! s; m !! a); row !! t).

(** Row [P[s, a, :]]. *)
Definition row_of (P : tensor) (s a : nat) : list Q :=
  default [] (m ← P !! s; m !! a).

(** Entry [R[s, a]] of a matrix. *)
Definition entry (R : matrix) (s a : nat) : Q :=
  default 0%Q (r ← R !! s; r !! a).

(** [P.shape == (n, k, n)] *)
Definition has_shape (n k : nat) (P : tensor) : Prop :=
  length P = n /\ Forall (fun m => length m = k /\ Forall (fun r => length r = n) m) P.

(** ** Coordinates and actions *)

Definition coord : Type := (Z * Z)%type.

(** Modelled from the spec: [emdp.actions], the fixed enumerated action set
    LEFT, RIGHT, UP, DOWN, each a unit displacement of the (row, col)
    coordinate; the action is also the index along the second axis of the
    transition tensor. *)
Inductive action : Type := LEFT | RIGHT | UP | DOWN.

#[global] Instance action_eq_dec : EqDecision action.
Proof. solve_decision. Defined.

Definition actions : list action := [LEFT; RIGHT; UP; DOWN].

Definition action_index (a : action) : nat :=
  match a with LEFT => 0 | RIGHT => 1 | UP => 2 | DOWN => 3 end.

Definition displacement (a : action) : coord :=
  match a with
  | LEFT => (0, -1)%Z
  | RIGHT => (0, 1)%Z
  | UP => (-1, 0)%Z
  | DOWN => (1, 0)%Z
  end.

(** ** State coder *)

Definition in_grid (size : nat) (x : Z) : bool :=
  (0 <=? x)%Z && (x <? Z.of_nat size)%Z.

Definition flat_index (size : nat) (c : coord) : nat :=
  Z.to_nat (Z.of_nat size * fst c + snd c).

(** The unit vector of length [n] with its 1 at index [i]. *)
Definition one_hot (n i : nat) : list Q := <[i := 1%Q]> (np_zeros n).

(** Modelled from the spec: [helper_utilities.flatten_state], section 4.2:
    flat index [size*row + col], a zero vector of length [total_states] with
    a 1 at that index, [OutOfBoundsError] when [row] or [col] is outside
    [[0,size)].  An index past the end of the vector is NumPy's
    [IndexError]. *)
Definition flatten_state (state : coord) (size total_states : nat) : result (list Q) :=
  let '(row, col) := state in
  if in_grid size row && in_grid size col then
    let idx := flat_index size (row, col) in
    if idx <? total_states then Ok (one_hot total_states idx)
    else Raise IndexError
  else Raise OutOfBoundsError.

(** Modelled from the spec: [helper_utilities.unflatten_state], section 4.2:
    the index of the 1-entry by [argmax]; the sentinel [(None, None)]
    (here [None]) when [has_absorbing_state] and the index is [size*size];
    otherwise [(index // size, index % size)]. *)
Definition unflatten_state (onehot : list Q) (size : nat) (has_absorbing_state : bool)
  : result (option coord) :=
  index ← np_argmax onehot;
  if has_absorbing_state && (index =? size * size) then Ok None
  else if size =? 0 then Raise ZeroDivisionError
  else Ok (Some (Z.of_nat (index / size), Z.of_nat (index mod size))).

(** ** Python string operations used on the maze text *)

(** [s[1:]] *)
Definition py_tail (s : string) : string :=
  match s with
  | EmptyString => EmptyString
  | String _ s' => s'
  end.

(** [s.split(sep)] for a one-character separator. *)
Fixpoint py_split (sep : ascii) (s : string) : list string :=
  match s with
  | EmptyString => [EmptyString]
  | String c s' =>
      if Ascii.eqb c sep then EmptyString :: py_split sep s'
      else match py_split sep s' with
           | [] => [String c EmptyString]
           | w :: ws => String c w :: ws
           end
  end.

Definition is_space (c : ascii) : bool :=
  let n := nat_of_ascii c in
  (n =? 32) || ((9 <=? n) && (n <=? 13)).

Fixpoint lstrip (cs : list ascii) : list ascii :=
  match cs with
  | [] => []
  | c :: cs' => if is_space c then lstrip cs' else cs
  end.

(** [s.strip()] *)
Definition py_strip (s : string) : string :=
  string_of_list_ascii (rev (lstrip (rev (lstrip (list_ascii_of_string s))))).

Definition newline : ascii := ascii_of_nat 10.

(** ** Maze parser *)

(** Modelled from the spec: [txt_utilities.get_char_matrix], section 4.1:
    the rows of the map as a matrix of characters; [MalformedMapError] when
    the map is empty or its rows have unequal length. *)
Definition get_char_matrix (rows : list string) : result (list (list ascii)) :=
  match rows with
  | [] => Raise MalformedMapError
  | r :: _ =>
      if forallb (fun r' => String.length r' =? String.length r) rows
      then Ok (list_ascii_of_string <$> rows)
      else Raise MalformedMapError
  end.

Definition wall_char : ascii := "#"%char.

(** All cells of a character matrix with their (row, col), row-major. *)
Definition cells (char_matrix : list (list ascii)) : list (coord * ascii) :=
  concat (imap (fun r row => imap (fun c ch => ((Z.of_nat r, Z.of_nat c), ch)) row)
               char_matrix).

(** Modelled from the spec: [txt_utilities.ascii_to_walls], section 4.1 and
    section 6: the wall coordinates (character [#]) and the open coordinates
    (any other character), as (row, col) pairs in row-major order. *)
Definition ascii_to_walls (char_matrix : list (list ascii)) : list coord * list coord :=
  let cs := cells char_matrix in
  (fst <$> filter (fun p => Ascii.eqb (snd p) wall_char = true) cs,
   fst <$> filter (fun p => Ascii.eqb (snd p) wall_char = false) cs).

(** ** Transition builder *)

(** Modelled from the spec: [builder_tools.TransitionMatrixBuilder],
    section 4.3.  Initialisation allocates the all-zero tensor of shape
    [(n*n[+1]) x 4 x (n*n[+1])]. *)
Record TransitionMatrixBuilder : Type := mkBuilder {
  grid_size : nat;
  has_terminal_state : bool;
  action_space : nat;
  P : tensor
}.

Definition state_space (n : nat) (has_terminal : bool) : nat :=
  n * n + (if has_terminal then 1 else 0).

Definition new_builder (n : nat) (has_terminal : bool) : TransitionMatrixBuilder :=
  let k := state_space n has_terminal in
  mkBuilder n has_terminal (length actions)
            (replicate k (replicate (length actions) (np_zeros k))).

(** One axis of a move: a step across the grid edge leaves the coordinate
    unchanged on that axis. *)
Definition clip (size : nat) (old new : Z) : Z :=
  if in_grid size new then new else old.

Definition move (size : nat) (c : coord) (a : action) : coord :=
  let '(dr, dc) := displacement a in
  (clip size (fst c) (fst c + dr), clip size (snd c) (snd c + dc)).

Definition coord_of_index (size s : nat) : coord :=
  (Z.of_nat (s / size), Z.of_nat (s mod size)).

(** The flat index reached from state [s] by action [a] on the open grid. *)
Definition target (size s : nat) (a : action) : nat :=
  flat_index size (move size (coord_of_index size s) a).

(** [row[i] += x] *)
Definition add_at (i : nat) (x : Q) (row : list Q) : list Q :=
  alter (fun y => (y + x)%Q) i row.

(** The row [P[s, a, :]] written by [add_grid]: [p_success] at the target of
    [a]; unless [p_success == 1], the rest of the mass in equal parts on
    the targets of the other three actions. *)
Definition grid_row (size : nat) (p_success : Q) (s : nat) (a : action) (row : list Q)
  : list Q :=
  let row1 := <[target size s a := p_success]> row in
  if Qeq_bool p_success 1 then row1
  else
    foldr (fun b r => add_at (target size s b) ((1 - p_success) / 3)%Q r) row1
          (filter (fun b => b <> a) actions).

(** The tensor after [add_grid(p_success)]: every grid state and every
    action gets its row; the trailing absorbing state, when allocated, is
    left as it is. *)
Definition grid_tensor (n : nat) (p_success : Q) (P : tensor) : tensor :=
  imap (fun s m =>
          if s <? n * n then
            imap (fun ai row =>
                    match actions !! ai with
                    | Some a => grid_row n p_success s a row
                    | None => row
                    end) m
          else m)
       P.

(** [add_grid(p_success)] *)
Definition add_grid (p_success : Q) (b : TransitionMatrixBuilder) : TransitionMatrixBuilder :=
  mkBuilder (grid_size b) (has_terminal_state b) (action_space b)
            (grid_tensor (grid_size b) p_success (P b)).

(** One row [P[s, a, :]] of another state [s] than the wall [w]: when the
    action would have led into the wall, that mass goes back to [s]. *)
Definition redirect (s w : nat) (row : list Q) : list Q :=
  let removed := default 0%Q (row !! w) in
  if Qeq_bool removed 0 then row
  else add_at s removed (<[w := 0%Q]> row).

(** The tensor after a wall at flat index [w]: the rows of every other
    state are redirected, the rows of the wall cell itself are left as they
    are. *)
Definition wall_tensor (w : nat) (P : tensor) : tensor :=
  imap (fun s m => if s =? w then m else redirect s w <$> m) P.

(** [add_wall_at((row, col))]: [InvalidWallError] for a coordinate outside
    the grid. *)
Definition add_wall_at (location : coord) (b : TransitionMatrixBuilder)
  : result TransitionMatrixBuilder :=
  let n := grid_size b in
  if in_grid n (fst location) && in_grid n (snd location) then
    Ok (mkBuilder n (has_terminal_state b) (action_space b)
                  (wall_tensor (flat_index n location) (P b)))
  else Raise InvalidWallError.

(** ** Reward builder *)

(** A Python dict [{coord: reward}], as its list of items. *)
Definition reward_spec_t : Type := list (coord * Q).

Definition goal_term (P : tensor) (s a : nat) (g : nat * Q) : Q :=
  (cell P s a (fst g) * snd g)%Q.

(** The all-zero tensor of [num_states x n_actions x num_states] after
    [add_grid(p_success=1)] on a grid of side [size]: the transitions of
    the grid without walls. *)
Definition open_grid (num_states size n_actions : nat) : tensor :=
  grid_tensor size 1 (replicate num_states (replicate n_actions (np_zeros num_states))).

(** Modelled from the spec: [builder_tools.create_reward_matrix], section
    4.4, with the four arguments of the call in [__init__]: the result has
    [num_states] rows and [action_space] columns, and two items for one
    coordinate raise [AmbiguousRewardError].  For the entries the section
    gives the sum over the goals of [P[s,a,flatten(goal)] * reward(goal)],
    of a tensor [P] that is not among the arguments; the entries here read
    the one tensor that the arguments determine, the grid of that size
    without walls and with deterministic moves ("reward is granted when the
    action deterministically lands on the goal").  Only the shape of the
    result and the errors are used in what follows. *)
Definition create_reward_matrix (num_states size : nat)
    (reward_spec : reward_spec_t) (n_actions : nat) : result matrix :=
  if bool_decide (NoDup (fst <$> reward_spec)) then
    goals ← collect (fun '(location, value) =>
                       onehot ← flatten_state location size num_states;
                       index ← np_argmax onehot;
                       Ok (index, value)) reward_spec;
    let P := open_grid num_states size n_actions in
    Ok ((fun s => (fun a => np_sum (goal_term P s a <$> goals)) <$> seq 0 n_actions)
          <$> seq 0 num_states)
  else Raise AmbiguousRewardError.

(** ** The MDP object *)

(** The fields of the base class [MDP] (modelled from the spec, section 3:
    the arrays handed to it, the number of states and the runtime's current
    state, a one-hot vector once set) followed by the three fields that
    [GridWorldMDP] adds.  [human_state] is a coordinate or the pair
    [(None, None)], here [None]. *)
Record GridWorldMDP : Type := mkMDP {
  transition : tensor;
  reward : matrix;
  discount : Q;
  p0 : list Q;
  terminal_states : list Z;
  seed : Z;
  num_states : nat;
  current_state : option (list Q);
  size : nat;
  human_state : option coord;
  has_absorbing_state : bool
}.

(** The literal of [__init__], between its triple quotes. *)
Definition room_text : string := "
        #########
        #   #   #
        #       #
        #   #   #
        ## ### ##
        #   #   #
        #       #
        #   #   #
        #########".

(** [room_text[1:].split('\n')], every row stripped. *)
Definition ascii_room : list string :=
  py_strip <$> py_split newline (py_tail room_text).

(** [(e,), = v.nonzero()]: exactly one index, else [ValueError]. *)
Definition the_only (idxs : list nat) : result nat :=
  match idxs with
  | [i] => Ok i
  | _ => Raise ValueError
  end.

(** [char_matrix[0]] *)
Definition first_row (char_matrix : list (list ascii)) : result (list ascii) :=
  match char_matrix with
  | [] => Raise IndexError
  | r :: _ => Ok r
  end.

(** Lines 50-57 of [__init__]: the flat indices of the open cells and the
    builder after [add_grid(p_success=1)] and one [add_wall_at] per wall. *)
Definition build_room (char_matrix : list (list ascii)) (n : nat)
  : result (list nat * TransitionMatrixBuilder) :=
  let builder := new_builder n false in
  let '(walls, empty_) := ascii_to_walls char_matrix in
  empty ← collect (fun e => onehot ← flatten_state e n (n * n);
                            the_only (np_nonzero onehot)) empty_;
  let builder := add_grid 1 builder in
  builder ← for_each add_wall_at walls builder;
  Ok (empty, builder).

(** Lines 61-62: [p0 = flatten_state((1, 1), ...); p0[empty] = 1 / len(empty)]. *)
Definition initial_distribution (empty : list nat) (n total : nat) : result (list Q) :=
  p0 ← flatten_state (1, 1)%Z n total;
  if length empty =? 0 then Raise ZeroDivisionError
  else np_set_indices empty (1 / inject_Z (Z.of_nat (length empty)))%Q p0.

(** Modelled from the spec: [MDP.__init__] stores the arrays it is given;
    the number of states is the first dimension of the transition tensor
    and no current state is set before [reset]. *)
Definition base_init (transition : tensor) (reward : matrix) (discount : Q)
    (initial_state : list Q) (terminal_states : list Z) (seed : Z)
    (size : nat) (human_state : option coord) (has_absorbing_state : bool)
  : GridWorldMDP :=
  mkMDP transition reward discount initial_state terminal_states seed
        (length transition) None size human_state has_absorbing_state.

(** Lines 64-72 of [__init__], for the tuple [terminal_states] of line 64.
    [convert_terminal_states_to_ints] is the constant [False], so the
    branch that maps the terminal coordinates to flat indices is the one
    taken. *)
Definition finish_init (transition : tensor) (reward : matrix) (initial_state : list Q)
    (size : nat) (terminal_coords : list coord) : GridWorldMDP :=
  let terminal_states :=
    (fun tupl : coord => (Z.of_nat size * fst tupl + snd tupl)%Z) <$> terminal_coords in
  base_init transition reward (9 # 10)%Q initial_state terminal_states 1337%Z
            size None (0 <? length terminal_states).

(** [GridWorldMDP.__init__(goal)]; the tuple of terminal states of line 64
    is the empty one. *)
Definition GridWorldMDP_init (goal : coord) : result GridWorldMDP :=
  char_matrix ← get_char_matrix ascii_room;
  let reward_spec : reward_spec_t := [(goal, 1%Q)] in
  row0 ← first_row char_matrix;
  let n := length row0 in
  '(empty, builder) ← build_room char_matrix n;
  R ← create_reward_matrix (length (P builder)) (grid_size builder)
        reward_spec (action_space builder);
  p0 ← initial_distribution empty (grid_size builder) (length R);
  Ok (finish_init (P builder) R p0 (grid_size builder) []).

(** ** Methods *)

(** [GridWorldMDP.flatten_state] *)
Definition mdp_flatten_state (self : GridWorldMDP) (state : coord) : result (list Q) :=
  flatten_state state (size self) (num_states self).

(** [GridWorldMDP.unflatten_state] *)
Definition mdp_unflatten_state (self : GridWorldMDP) (onehot : list Q)
  : result (option coord) :=
  unflatten_state onehot (size self) (has_absorbing_state self).

Definition set_human_state (h : option coord) (self : GridWorldMDP) : GridWorldMDP :=
  mkMDP (transition self) (reward self) (discount self) (p0 self)
        (terminal_states self) (seed self) (num_states self) (current_state self)
        (size self) h (has_absorbing_state self).

Definition set_current_state (c : list Q) (self : GridWorldMDP) : GridWorldMDP :=
  mkMDP (transition self) (reward self) (discount self) (p0 self)
        (terminal_states self) (seed self) (num_states self) (Some c)
        (size self) (human_state self) (has_absorbing_state self).

(** [self.current_state] where a one-hot vector is needed. *)
Definition get_current_state (self : GridWorldMDP) : result (list Q) :=
  match current_state self with
  | Some c => Ok c
  | None => Raise TypeError
  end.

(** Modelled from the spec: [MDP.set_current_state_to], section 4.5: forces
    the runtime's current state to the given flat index (as the one-hot
    vector that [unflatten_state] reads) and touches nothing else. *)
Definition base_set_current_state_to (index : nat) (self : GridWorldMDP)
  : result (list Q * GridWorldMDP) :=
  if index <? num_states self then
    let c := one_hot (num_states self) index in
    Ok (c, set_current_state c self)
  else Raise IndexError.

(** [GridWorldMDP.set_current_state_to] *)
Definition set_current_state_to (tuple_state : coord) (self : GridWorldMDP)
  : result (list Q * GridWorldMDP) :=
  onehot ← mdp_flatten_state self tuple_state;
  index ← np_argmax onehot;
  base_set_current_state_to index self.

Section Runtime.

(** The sampling runtime of the base class is outside this file: its
    [reset] and [step] are arbitrary (possibly failing) updates of the
    object, the latter returning [(state, reward, done, info)]. *)
Context {Info : Type}.
Variable base_reset : GridWorldMDP -> result GridWorldMDP.
Variable base_step :
  nat -> GridWorldMDP -> result ((list Q * Q * bool * Info) * GridWorldMDP).

(** [GridWorldMDP.reset] *)
Definition reset (self : GridWorldMDP) : result (list Q * GridWorldMDP) :=
  self ← base_reset self;
  c ← get_current_state self;
  h ← mdp_unflatten_state self c;
  let self := set_human_state h self in
  c ← get_current_state self;
  Ok (c, self).

(** [GridWorldMDP.step] *)
Definition step (action : nat) (self : GridWorldMDP)
  : result ((list Q * Q * bool * Info) * GridWorldMDP) :=
  '(ret, self) ← base_step action self;
  c ← get_current_state self;
  h ← mdp_unflatten_state self c;
  Ok (ret, set_human_state h self).

End Runtime.

(** ** Plotting *)

(** What [plot_sa] hands to matplotlib: the [quiver] calls in order, the
    pairs given to [set_xlim] and [set_ylim], the arrays given to
    [set_xticks] and [set_yticks] (major, then minor) and the title.  The
    figure object itself, the grid lines and the aspect ratio carry no
    data. *)
Inductive color : Type := Green | Red.

Record quiver_call : Type := mkQuiver {
  q_x : list nat;
  q_y : list nat;
  q_u : list Q;
  q_v : list Q;
  q_color : color
}.

Record axes : Type := mkAxes {
  ax_quivers : list quiver_call;
  ax_set_xlim : Q * Q;
  ax_set_ylim : Q * Q;
  ax_xticks : list Z;
  ax_yticks : list Z;
  ax_xticks_minor : list Q;
  ax_yticks_minor : list Q;
  ax_title : string
}.

(** A two-dimensional array: its rows and [shape[1]], which an array has
    even when it has no row. *)
Record ndarray2 : Type := mkArray {
  arr_rows : list (list Q);
  arr_ncols : nat
}.

Definition well_shaped (data : ndarray2) : Prop :=
  Forall (fun r => length r = arr_ncols data) (arr_rows data).

(** The result of [plot_sa]: a value, an exception of [error], or the
    failure of its [assert]. *)
Inductive outcome (A : Type) : Type :=
| Done (a : A)
| Fail (e : error)
| AssertionFailed.
Arguments Done {A} a.
Arguments Fail {A} e.
Arguments AssertionFailed {A}.

Definition qmax (a b : Q) : Q := if Qle_bool a b then b else a.

(** [np.abs(data).max()]; [ValueError] on an array without entries. *)
Definition np_abs_max (rows : list (list Q)) : result Q :=
  match Qabs <$> concat rows with
  | [] => Raise ValueError
  | x :: xs => Ok (foldl qmax x xs)
  end.

(** [data / (scale * 1.1)], entry by entry.  Its two float64 operations
    are not the arithmetic of the rationals (the quotient of the smallest
    subnormal by itself times 1.1 is 1, and the product is infinite for the
    largest entries, which makes every quotient 0), so the value of one
    entry is taken as given: [scaled x scale] is the float64 value of
    [x / (scale * 1.1)], and 0 where that is NaN (the table of zeros); like
    0, NaN is neither above nor below 0. *)
Definition scale_rows (scaled : Q -> Q -> Q) (scale : Q) (rows : list (list Q))
  : list (list Q) :=
  (fun row : list Q => (fun x => scaled x scale) <$> row) <$> rows.

(** [data[:, a]] *)
Definition column (a : nat) (rows : list (list Q)) : list Q :=
  (fun row : list Q => default 0%Q (row !! a)) <$> rows.

(** [np.meshgrid(np.arange(nr), np.arange(nc))], both results flattened. *)
Definition mesh_x (nr nc : nat) : list nat := concat (replicate nc (seq 0 nr)).
Definition mesh_y (nr nc : nat) : list nat :=
  concat ((fun i => replicate nr i) <$> seq 0 nc).

Fixpoint select {A : Type} (mask : list bool) (v : list A) : list A :=
  match mask, v with
  | b :: mask', x :: v' => if b then x :: select mask' v' else select mask' v'
  | _, _ => []
  end.

(** [v[mask]] with a boolean mask: [IndexError] unless the lengths agree;
    a mask of length 0 is not checked against [v] and selects nothing. *)
Definition np_mask {A : Type} (mask : list bool) (v : list A) : result (list A) :=
  if (length mask =? 0) || (length mask =? length v) then Ok (select mask v)
  else Raise IndexError.

Definition Qlt_bool (a b : Q) : bool := negb (Qle_bool b a).

(** The table [direction] of [plot_sa], filled row by row. *)
Definition direction (num_actions : nat) : list (Q * Q) :=
  <[action_index DOWN := (0, -1)%Q]>
    (<[action_index UP := (0, 1)%Q]>
       (<[action_index RIGHT := (1, 0)%Q]>
          (<[action_index LEFT := (-1, 0)%Q]>
             (replicate num_actions (0, 0)%Q)))).

(** One turn of the loop over the actions: the green arrows of the
    positive entries of the column, then the red arrows of its negative
    entries, drawn with the opposite of their vectors. *)
Definition plot_action (x y : list nat) (rows : list (list Q))
    (ba : (Q * Q) * nat) (acc : list quiver_call) : result (list quiver_call) :=
  let '(base, a) := ba in
  let col := column a rows in
  let qu := (fun d => fst base * d)%Q <$> col in
  let qv := (fun d => snd base * d)%Q <$> col in
  let pos := (fun d => Qlt_bool 0 d) <$> col in
  gx ← np_mask pos x;
  gy ← np_mask pos y;
  gu ← np_mask pos qu;
  gv ← np_mask pos qv;
  let acc := acc ++ [mkQuiver gx gy gu gv Green] in
  let neg := (fun d => Qlt_bool d 0) <$> col in
  rx ← np_mask neg x;
  ry ← np_mask neg y;
  ru ← np_mask neg qu;
  rv ← np_mask neg qv;
  Ok (acc ++ [mkQuiver rx ry (Qopp <$> ru) (Qopp <$> rv) Red]).

(** [np.arange(start, stop, 1)] on integers and on floats. *)
Definition np_arange_int (start stop : Z) : list Z :=
  (fun k => (start + Z.of_nat k)%Z) <$> seq 0 (Z.to_nat (stop - start)).

Definition np_arange (start stop : Q) : list Q :=
  (fun k => (start + inject_Z (Z.of_nat k))%Q)
    <$> seq 0 (Z.to_nat (Qceiling (stop - start))).

Definition swap_pair {A : Type} (p : A * A) : A * A := (snd p, fst p).

Section Plot.

(** Python's [f"{scale:.4f}"] is taken as given. *)
Variable format_4f : Q -> string.

(** The float64 division of the scaling, see [scale_rows]. *)
Variable scaled : Q -> Q -> Q.

(** What [ax.get_xlim()] and [ax.get_ylim()] return once [set_xlim] and
    [set_ylim] were given a pair: matplotlib keeps the pair unless it
    cannot use it as limits (it widens a pair whose two ends coincide). *)
Variable get_lim : Q * Q -> Q * Q.

(** [GridWorldMDP.plot_sa(title, data, scale_data, frame)]; the result is
    the tag and what was drawn.  [frame] holds four integers; the halves of
    the limits are written as rationals, which is what float64 computes
    for the integers of [half_exact]. *)
Definition plot_sa (self : GridWorldMDP) (title : string) (data : ndarray2)
    (scale_data : bool) (frame : Z * Z * Z * Z) : outcome (string * axes) :=
  match (if scale_data
         then scale ← np_abs_max (arr_rows data);
              Ok (Some scale, scale_rows scaled scale (arr_rows data))
         else Ok (None, arr_rows data)) with
  | Raise e => Fail e
  | Ok (scale, rows) =>
      let num_cols := size self in
      let num_rows := size self in
      let num_actions := arr_ncols data in
      if negb (num_actions =? 4) then AssertionFailed
      else
        let x := mesh_x num_rows num_cols in
        let y := mesh_y num_rows num_cols in
        match for_each (plot_action x y rows)
                       (zip (direction num_actions) (seq 0 num_actions)) [] with
        | Raise e => Fail e
        | Ok quivers =>
            let '(x0, x1, y0, y1) := frame in
            let xlim :=
              (inject_Z x0 - (1 # 2),
               inject_Z (Z.of_nat num_cols) - inject_Z x1 - (1 # 2))%Q in
            let ylim := swap_pair
              (inject_Z y0 - (1 # 2),
               inject_Z (Z.of_nat num_rows) - inject_Z y1 - (1 # 2))%Q in
            let tag := ("plots/" ++ title)%string in
            let title := match scale with
                         | Some sc => (title ++ "_" ++ format_4f sc)%string
                         | None => title
                         end in
            Done (tag,
                  mkAxes quivers xlim ylim
                         (np_arange_int x0 (Z.of_nat num_cols - x1))
                         (np_arange_int y0 (Z.of_nat num_rows - y1))
                         (np_arange (fst (get_lim xlim)) (snd (get_lim xlim)))
                         (np_arange (fst (swap_pair (get_lim ylim)))
                                    (snd (swap_pair (get_lim ylim))))
                         title)
        end
  end.

End Plot.

(** ** Notions used in the statements *)

(** Entry [row[t]]; past the end the model reads 0. *)
Definition vget (row : list Q) (t : nat) : Q := default 0%Q (row !! t).

Definition indicator (b : bool) : Q := if b then 1%Q else 0%Q.

(** The tensor after one [add_wall_at] per flat wall index, in order. *)
Definition walls_tensor (walls : list nat) (P : tensor) : tensor :=
  foldl (fun P w => wall_tensor w P) P walls.

(** The state in which action [a] from state [s] ends when the cells
    [walls] are walled: the grid target, or [s] itself when that target is
    a wall. *)
Definition bounce (n : nat) (walls : list nat) (s : nat) (a : action) : nat :=
  let g := target n s a in
  if bool_decide (g ∈ walls) then s else g.

(** Every row of the first [n] states and the four actions sums to 1. *)
Definition row_stochastic (n : nat) (P : tensor) : Prop :=
  forall s a, s < n -> a < length actions -> (np_sum (row_of P s a) == 1)%Q.

(** The maze of [__init__], parsed. *)
Definition room_chars : list (list ascii) := list_ascii_of_string <$> ascii_room.
Definition room_walls : list coord := fst (ascii_to_walls room_chars).
Definition room_open : list coord := snd (ascii_to_walls room_chars).
Definition wall_indices : list nat := flat_index 9 <$> room_walls.
Definition open_indices : list nat := flat_index 9 <$> room_open.

(** The transition tensor of the maze after [add_grid(p_success=1)] and the
    first [k] calls of [add_wall_at]. *)
Definition room_tensor_after (k : nat) : tensor :=
  walls_tensor (take k wall_indices) (P (add_grid 1 (new_builder 9 false))).

Definition room_P : tensor := room_tensor_after (length wall_indices).

(** The reward matrix of the maze for one goal with reward [+1]. *)
Definition room_R (goal : coord) : matrix :=
  (fun s => (fun a => np_sum [goal_term (open_grid 81 9 4) s a (flat_index 9 goal, 1%Q)])
              <$> seq 0 4) <$> seq 0 81.

(** The uniform distribution over the open cells of the maze. *)
Definition room_p0 : list Q :=
  (fun i => if bool_decide (i ∈ open_indices)
            then (1 / inject_Z (Z.of_nat (length open_indices)))%Q else 0%Q)
    <$> seq 0 81.

(** The object that [__init__] builds for an in-bounds goal. *)
Definition room_mdp (goal : coord) : GridWorldMDP :=
  base_init room_P (room_R goal) (9 # 10)%Q room_p0 [] 1337%Z 9 None false.

Definition in_bounds (n : nat) (c : coord) : Prop :=
  (0 <= fst c < Z.of_nat n)%Z /\ (0 <= snd c < Z.of_nat n)%Z.

(** Every row of a grid state is the unit vector at the state that
    [bounce] names. *)
Definition deterministic_rows (n : nat) (walls : list nat) (P : tensor) : Prop :=
  forall s a t, s < n * n -> t < n * n ->
    (cell P s (action_index a) t == indicator (t =? bounce n walls s a))%Q.

(** The [quiver] call of colour [c] for action [a] over the [N] states of
    the table [rows]: the states whose entry is positive (green) or
    negative (red), in index order, each at column [s mod n] and row
    [s / n], with the entry times [base] as vector, negated for red. *)
Definition arrows (n N : nat) (rows : list (list Q)) (c : color)
    (ba : (Q * Q) * nat) : quiver_call :=
  let d := fun s => entry rows s (snd ba) in
  let keep := fun s => match c with
                       | Green => Qlt_bool 0 (d s)
                       | Red => Qlt_bool (d s) 0
                       end in
  let sgn := fun q : Q => match c with Green => q | Red => (- q)%Q end in
  let states := filter (fun s => keep s = true) (seq 0 N) in
  mkQuiver ((fun s => s mod n) <$> states) ((fun s => s / n) <$> states)
           ((fun s => sgn (fst (fst ba) * d s)%Q) <$> states)
           ((fun s => sgn (snd (fst ba) * d s)%Q) <$> states) c.

(** The table that [plot_sa] draws: [data], divided by [1.1] times its
    largest absolute value when [scale_data] is set. *)
Definition drawn_rows (scaled : Q -> Q -> Q) (scale_data : bool) (rows : list (list Q))
  : list (list Q) :=
  if scale_data then
    match np_abs_max rows with
    | Ok scale => scale_rows scaled scale rows
    | Raise _ => rows
    end
  else rows.


(** * Lemmas *)

(** ** The error monad *)

Lemma bind_Ok {A B} (r : result A) (f : A -> result B) (b : B) :
  r ≫= f = Ok b -> exists a, r = Ok a /\ f a = Ok b.
Proof. destruct r as [a|e]; simpl; [eauto | discriminate]. Qed.

Ltac inv_bind H :=
  let x := fresh "x" in
  let Hx := fresh "Hx" in
  apply bind_Ok in H; destruct H as (x & Hx & H).

Tactic Notation "bind_inv" hyp(H) "as" ident(x) ident(Hx) :=
  apply bind_Ok in H; destruct H as (x & Hx & H).

(** ** Vectors *)

Lemma vget_insert (l : list Q) (i j : nat) (x : Q) :
  i < length l -> vget (<[i := x]> l) j = if j =? i then x else vget l j.
Proof.
  intros Hi. unfold vget. destruct (Nat.eqb_spec j i) as [->|Hne].
  - by rewrite list_lookup_insert_eq.
  - by rewrite list_lookup_insert_ne.
Qed.

Lemma vget_insert_ne (l : list Q) (i j : nat) (x : Q) :
  j <> i -> vget (<[i := x]> l) j = vget l j.
Proof. intros Hne. unfold vget. by rewrite list_lookup_insert_ne. Qed.

Lemma vget_add_at (l : list Q) (i j : nat) (x : Q) :
  i < length l ->
  vget (add_at i x l) j = if j =? i then (vget l i + x)%Q else vget l j.
Proof.
  intros Hi. unfold vget, add_at. rewrite list_lookup_alter.
  destruct (Nat.eqb_spec j i) as [->|Hne].
  - rewrite decide_True by done.
    destruct (lookup_lt_is_Some_2 l i Hi) as [y ->]. done.
  - rewrite decide_False by done. done.
Qed.

Lemma vget_ge (l : list Q) (i : nat) : length l <= i -> vget l i = 0%Q.
Proof. intros H. unfold vget. by rewrite lookup_ge_None_2. Qed.

Lemma vget_zeros (n i : nat) : vget (np_zeros n) i = 0%Q.
Proof.
  unfold vget, np_zeros. destruct (replicate n 0%Q !! i) as [y|] eqn:E; [|done].
  apply lookup_replicate in E as [-> _]. done.
Qed.

Lemma length_add_at (i : nat) (x : Q) (l : list Q) : length (add_at i x l) = length l.
Proof. apply length_alter. Qed.

Lemma np_sum_insert (l : list Q) (i : nat) (x : Q) :
  i < length l -> (np_sum (<[i := x]> l) == np_sum l - vget l i + x)%Q.
Proof.
  revert i. induction l as [|y l IH]; intros [|i] Hi; simpl in *; try lia.
  - unfold vget. simpl. ring.
  - rewrite IH by lia. unfold vget. simpl. ring.
Qed.

Lemma np_sum_add_at (l : list Q) (i : nat) (x : Q) :
  i < length l -> (np_sum (add_at i x l) == np_sum l + x)%Q.
Proof.
  revert i. induction l as [|y l IH]; intros [|i] Hi; simpl in Hi; try lia.
  - unfold add_at. simpl. ring.
  - change (add_at (S i) x (y :: l)) with (y :: add_at i x l).
    change (np_sum (y :: add_at i x l)) with (y + np_sum (add_at i x l))%Q.
    rewrite IH by lia. simpl. ring.
Qed.

Lemma vget_table (f : nat -> Q) (n i : nat) : i < n -> vget (f <$> seq 0 n) i = f i.
Proof.
  intros Hi. unfold vget. rewrite list_lookup_fmap, (lookup_seq_lt 0 n i Hi).
  reflexivity.
Qed.

Lemma np_sum_zeros (n : nat) : (np_sum (np_zeros n) == 0)%Q.
Proof. induction n as [|n IH]; simpl; [reflexivity | rewrite IH; ring]. Qed.

(** ** One-hot vectors and [argmax] *)

Lemma length_one_hot (n i : nat) : length (one_hot n i) = n.
Proof. unfold one_hot, np_zeros. by rewrite length_insert, length_replicate. Qed.

Lemma vget_one_hot (n i j : nat) :
  i < n -> vget (one_hot n i) j = indicator (j =? i).
Proof.
  intros Hi. unfold one_hot. rewrite vget_insert.
  - destruct (j =? i); [done | apply vget_zeros].
  - unfold np_zeros. by rewrite length_replicate.
Qed.

Lemma lookup_one_hot (n i j : nat) :
  i < n -> j < n -> one_hot n i !! j = Some (indicator (j =? i)).
Proof.
  intros Hi Hj. rewrite <- (vget_one_hot n i j Hi). unfold vget.
  destruct (lookup_lt_is_Some_2 (one_hot n i) j) as [y ->]; [|done].
  by rewrite length_one_hot.
Qed.

Lemma argmax_from_zeros (k b : nat) (v : Q) (m : nat) :
  (0 <= v)%Q -> argmax_from k b v (np_zeros m) = b.
Proof.
  intros Hv. revert k. induction m as [|m IH]; intros k; simpl; [done|].
  apply Qle_bool_iff in Hv. rewrite Hv. apply IH.
Qed.

Lemma argmax_from_one_hot (k b m i : nat) :
  i < m -> argmax_from k b 0 (one_hot m i) = k + i.
Proof.
  revert k b i. induction m as [|m IH]; intros k b [|i] Hi; try lia.
  - change (one_hot (S m) 0) with (1%Q :: np_zeros m). simpl.
    rewrite argmax_from_zeros by discriminate. lia.
  - change (one_hot (S m) (S i)) with (0%Q :: one_hot m i). simpl.
    rewrite IH by lia. lia.
Qed.

Lemma np_argmax_one_hot (n i : nat) : i < n -> np_argmax (one_hot n i) = Ok i.
Proof.
  intros Hi. destruct n as [|m]; [lia|]. destruct i as [|i].
  - change (one_hot (S m) 0) with (1%Q :: np_zeros m). simpl.
    by rewrite argmax_from_zeros by discriminate.
  - change (one_hot (S m) (S i)) with (0%Q :: one_hot m i). simpl.
    by rewrite argmax_from_one_hot by lia.
Qed.

(** ** The state coder *)

Lemma in_grid_spec (n : nat) (x : Z) :
  in_grid n x = true <-> (0 <= x < Z.of_nat n)%Z.
Proof. unfold in_grid. rewrite andb_true_iff. lia. Qed.

Lemma in_bounds_spec (n : nat) (c : coord) :
  in_grid n (fst c) && in_grid n (snd c) = true <-> in_bounds n c.
Proof. unfold in_bounds. rewrite andb_true_iff, !in_grid_spec. tauto. Qed.

Lemma flat_index_nat (n : nat) (c : coord) :
  in_bounds n c ->
  flat_index n c = n * Z.to_nat (fst c) + Z.to_nat (snd c).
Proof. intros [H1 H2]. unfold flat_index. nia. Qed.

Lemma flat_index_lt (n : nat) (c : coord) :
  in_bounds n c -> flat_index n c < n * n.
Proof. intros H. rewrite flat_index_nat by done. destruct H as [H1 H2]. nia. Qed.

Lemma flat_index_div (n : nat) (c : coord) :
  in_bounds n c -> Z.of_nat (flat_index n c / n) = fst c.
Proof.
  intros H. rewrite flat_index_nat by done. destruct H as [H1 H2].
  assert (Hn : n <> 0) by lia.
  rewrite (Nat.mul_comm n), Nat.div_add_l by done.
  rewrite Nat.div_small by lia. lia.
Qed.

Lemma flat_index_mod (n : nat) (c : coord) :
  in_bounds n c -> Z.of_nat (flat_index n c mod n) = snd c.
Proof.
  intros H. rewrite flat_index_nat by done. destruct H as [H1 H2].
  assert (Hn : n <> 0) by lia.
  rewrite Nat.add_comm, (Nat.mul_comm n), Nat.Div0.mod_add.
  rewrite Nat.mod_small by lia. lia.
Qed.

Lemma flatten_state_in (c : coord) (n total : nat) :
  in_bounds n c -> flat_index n c < total ->
  flatten_state c n total = Ok (one_hot total (flat_index n c)).
Proof.
  intros Hc Hlt. apply in_bounds_spec in Hc. destruct c as [row col].
  unfold flatten_state. simpl in Hc. rewrite Hc.
  apply Nat.ltb_lt in Hlt. by rewrite Hlt.
Qed.

Lemma flatten_state_out (c : coord) (n total : nat) :
  ~ in_bounds n c -> flatten_state c n total = Raise OutOfBoundsError.
Proof.
  intros Hc. rewrite <- in_bounds_spec in Hc. destruct c as [row col].
  unfold flatten_state. simpl in Hc. by destruct (in_grid n row && in_grid n col).
Qed.

Lemma flatten_state_Ok (c : coord) (n total : nat) (v : list Q) :
  flatten_state c n total = Ok v ->
  in_bounds n c /\ flat_index n c < total /\ v = one_hot total (flat_index n c).
Proof.
  intros H. destruct c as [row col]. unfold flatten_state in H.
  destruct (in_grid n row && in_grid n col) eqn:E; [|discriminate].
  destruct (flat_index n (row, col) <? total) eqn:E2; [|discriminate].
  apply (in_bounds_spec n (row, col)) in E. apply Nat.ltb_lt in E2.
  by inversion H.
Qed.

Lemma unflatten_one_hot (n total i : nat) :
  0 < n -> i < total ->
  unflatten_state (one_hot total i) n false
  = Ok (Some (Z.of_nat (i / n), Z.of_nat (i mod n))).
Proof.
  intros Hn Hi. unfold unflatten_state. rewrite np_argmax_one_hot by done. simpl.
  destruct (Nat.eqb_spec n 0); [lia | done].
Qed.

Lemma unflatten_flatten (c : coord) (n total : nat) :
  in_bounds n c -> n * n <= total ->
  flatten_state c n total ≫= (fun v => unflatten_state v n false) = Ok (Some c).
Proof.
  intros Hc Ht. pose proof (flat_index_lt n c Hc) as Hlt.
  rewrite flatten_state_in by (done || lia). simpl.
  assert (0 < n) by (destruct Hc; lia).
  rewrite unflatten_one_hot by (done || lia).
  rewrite flat_index_div, flat_index_mod by done. by destruct c.
Qed.

(** ** Rows of the tensor *)

Lemma cell_row_of (P : tensor) (s a t : nat) : cell P s a t = vget (row_of P s a) t.
Proof.
  unfold cell, row_of, vget. destruct (P !! s) as [m|]; simpl; [|done].
  by destruct (m !! a).
Qed.

Lemma redirect_nil (s w : nat) : redirect s w [] = [].
Proof. reflexivity. Qed.

Lemma length_redirect (s w : nat) (row : list Q) :
  length (redirect s w row) = length row.
Proof.
  unfold redirect. destruct (Qeq_bool _ 0); [done|].
  by rewrite length_add_at, length_insert.
Qed.

Lemma row_of_wall_tensor (w : nat) (P : tensor) (s a : nat) :
  row_of (wall_tensor w P) s a
  = if s =? w then row_of P s a else redirect s w (row_of P s a).
Proof.
  unfold row_of, wall_tensor. rewrite list_lookup_imap.
  destruct (P !! s) as [m|]; simpl; [|by destruct (s =? w)].
  destruct (s =? w); [done|]. rewrite list_lookup_fmap.
  by destruct (m !! a).
Qed.

Lemma grid_row_nil (n : nat) (p : Q) (s : nat) (a : action) : grid_row n p s a [] = [].
Proof.
  unfold grid_row. destruct (Qeq_bool p 1); [done|].
  induction (filter _ actions) as [|b bs IH]; simpl; [done | by rewrite IH].
Qed.

Lemma length_grid_row (n : nat) (p : Q) (s : nat) (a : action) (row : list Q) :
  length (grid_row n p s a row) = length row.
Proof.
  unfold grid_row. destruct (Qeq_bool p 1); [by rewrite length_insert|].
  induction (filter _ actions) as [|b bs IH]; simpl.
  - by rewrite length_insert.
  - by rewrite length_add_at.
Qed.

Lemma row_of_grid_tensor (n : nat) (p : Q) (P : tensor) (s : nat) (a : action) :
  s < n * n ->
  row_of (grid_tensor n p P) s (action_index a) = grid_row n p s a (row_of P s (action_index a)).
Proof.
  intros Hs. unfold row_of, grid_tensor. rewrite list_lookup_imap.
  apply Nat.ltb_lt in Hs. rewrite Hs.
  destruct (P !! s) as [m|]; simpl; [|by rewrite grid_row_nil].
  rewrite list_lookup_imap.
  replace (actions !! action_index a) with (Some a) by (by destruct a).
  destruct (m !! action_index a); simpl; [done | by rewrite grid_row_nil].
Qed.

Lemma action_of_index (a : nat) :
  a < length actions -> exists act, a = action_index act.
Proof.
  intros Ha. simpl in Ha.
  destruct a as [|[|[|[|a]]]]; [by exists LEFT | by exists RIGHT | by exists UP | by exists DOWN | lia].
Qed.

Lemma action_index_lt (a : action) : action_index a < length actions.
Proof. destruct a; simpl; lia. Qed.

Lemma row_of_zeros (k m s a : nat) :
  s < k -> a < m -> row_of (replicate k (replicate m (np_zeros k))) s a = np_zeros k.
Proof.
  intros Hs Ha. unfold row_of.
  rewrite (lookup_replicate_2 k _ s Hs). simpl.
  by rewrite (lookup_replicate_2 m _ a Ha).
Qed.

(** ** Shapes *)

Lemma has_shape_lookup (n k : nat) (P : tensor) :
  has_shape n k P <->
  length P = n /\
  forall s m, P !! s = Some m ->
    length m = k /\ forall a r, m !! a = Some r -> length r = n.
Proof.
  unfold has_shape. rewrite Forall_lookup. split; intros [HL H]; (split; [done|]).
  - intros s m Hm. destruct (H s m Hm) as [Hk Hr]. split; [done|].
    by apply Forall_lookup.
  - intros s m Hm. destruct (H s m Hm) as [Hk Hr]. split; [done|].
    by apply Forall_lookup.
Qed.

Lemma has_shape_zeros (k m : nat) :
  has_shape k m (replicate k (replicate m (np_zeros k))).
Proof.
  apply has_shape_lookup. split; [by rewrite length_replicate|].
  intros s mm Hs. apply lookup_replicate in Hs as [-> _].
  split; [by rewrite length_replicate|].
  intros a r Ha. apply lookup_replicate in Ha as [-> _].
  unfold np_zeros. by rewrite length_replicate.
Qed.

Lemma has_shape_wall_tensor (n k w : nat) (P : tensor) :
  has_shape n k P -> has_shape n k (wall_tensor w P).
Proof.
  rewrite !has_shape_lookup. intros [HL H]. unfold wall_tensor.
  split; [by rewrite length_imap|].
  intros s m Hm. rewrite list_lookup_imap in Hm.
  destruct (P !! s) as [m0|] eqn:E; [|discriminate]. simpl in Hm.
  destruct (H s m0 E) as [Hk Hr].
  destruct (s =? w); inversion Hm; subst m; [done|].
  split; [by rewrite length_fmap|].
  intros a r Ha. rewrite list_lookup_fmap in Ha.
  destruct (m0 !! a) as [r0|] eqn:E2; [|discriminate].
  inversion Ha; subst r. rewrite length_redirect. eauto.
Qed.

Lemma has_shape_grid_tensor (n k j : nat) (p : Q) (P : tensor) :
  has_shape n k P -> has_shape n k (grid_tensor j p P).
Proof.
  rewrite !has_shape_lookup. intros [HL H]. unfold grid_tensor.
  split; [by rewrite length_imap|].
  intros s m Hm. rewrite list_lookup_imap in Hm.
  destruct (P !! s) as [m0|] eqn:E; [|discriminate]. simpl in Hm.
  destruct (H s m0 E) as [Hk Hr].
  destruct (s <? j * j); inversion Hm; subst m; [|done].
  split; [by rewrite length_imap|].
  intros a r Ha. rewrite list_lookup_imap in Ha.
  destruct (m0 !! a) as [r0|] eqn:E2; [|discriminate].
  inversion Ha; subst r.
  destruct (actions !! a); [rewrite length_grid_row|]; eauto.
Qed.

Lemma has_shape_walls_tensor (n k : nat) (walls : list nat) (P : tensor) :
  has_shape n k P -> has_shape n k (walls_tensor walls P).
Proof.
  revert P. induction walls as [|w ws IH]; intros P HP; simpl; [done|].
  apply IH. by apply has_shape_wall_tensor.
Qed.

Lemma has_shape_row_of (n k : nat) (P : tensor) (s a : nat) :
  has_shape n k P -> s < n -> a < k -> length (row_of P s a) = n.
Proof.
  rewrite has_shape_lookup. intros [HL H] Hs Ha. unfold row_of.
  destruct (lookup_lt_is_Some_2 P s) as [m Hm]; [lia|].
  destruct (H s m Hm) as [Hk Hr]. rewrite Hm. simpl.
  destruct (lookup_lt_is_Some_2 m a) as [r Hra]; [lia|].
  rewrite Hra. simpl. eauto.
Qed.

(** ** Moves stay on the grid *)

Lemma clip_range (n : nat) (old new : Z) :
  (0 <= old < Z.of_nat n)%Z -> (0 <= clip n old new < Z.of_nat n)%Z.
Proof.
  intros H. unfold clip. destruct (in_grid n new) eqn:E; [|done].
  by apply in_grid_spec.
Qed.

Lemma move_in_bounds (n : nat) (c : coord) (a : action) :
  in_bounds n c -> in_bounds n (move n c a).
Proof.
  intros [H1 H2]. unfold move. destruct (displacement a) as [dr dc].
  split; simpl; by apply clip_range.
Qed.

Lemma coord_of_index_in_bounds (n s : nat) :
  s < n * n -> in_bounds n (coord_of_index n s).
Proof.
  intros Hs. assert (n <> 0) by lia. unfold coord_of_index. split; simpl.
  - pose proof (Nat.Div0.div_lt_upper_bound s n n Hs). lia.
  - pose proof (Nat.mod_upper_bound s n). lia.
Qed.

Lemma target_lt (n s : nat) (a : action) : s < n * n -> target n s a < n * n.
Proof.
  intros Hs. unfold target. apply flat_index_lt, move_in_bounds.
  by apply coord_of_index_in_bounds.
Qed.

(** ** Row sums *)

Lemma np_sum_grid_row (n N : nat) (p : Q) (s : nat) (a : action) :
  (forall b, target n s b < N) ->
  (np_sum (grid_row n p s a (np_zeros N)) == 1)%Q.
Proof.
  intros Ht.
  assert (HN : forall b, target n s b < length (np_zeros N)).
  { intros b. unfold np_zeros. rewrite length_replicate. apply Ht. }
  assert (H1 : (np_sum (<[target n s a := p]> (np_zeros N)) == p)%Q).
  { rewrite np_sum_insert by apply HN. rewrite np_sum_zeros, vget_zeros. ring. }
  unfold grid_row. destruct (Qeq_bool p 1) eqn:E.
  - rewrite H1. by apply Qeq_bool_iff.
  - assert (Hlen : forall bs,
      length (foldr (fun b r => add_at (target n s b) ((1 - p) / 3)%Q r)
                    (<[target n s a := p]> (np_zeros N)) bs) = length (np_zeros N)).
    { induction bs as [|b bs IH]; simpl;
        [by rewrite length_insert | by rewrite length_add_at]. }
    assert (Hsum : forall bs,
      (np_sum (foldr (fun b r => add_at (target n s b) ((1 - p) / 3)%Q r)
                     (<[target n s a := p]> (np_zeros N)) bs)
       == p + inject_Z (Z.of_nat (length bs)) * ((1 - p) / 3))%Q).
    { induction bs as [|b bs IH].
      - simpl. rewrite H1. ring.
      - cbn [foldr]. rewrite np_sum_add_at by (rewrite Hlen; apply HN).
        rewrite IH. cbn [length]. rewrite Nat2Z.inj_succ. unfold Z.succ.
        rewrite inject_Z_plus. ring. }
    rewrite Hsum.
    replace (length (filter (fun b => b <> a) actions)) with 3 by (by destruct a).
    simpl. field.
Qed.

Lemma np_sum_redirect (s w : nat) (row : list Q) :
  s <> w -> s < length row -> (np_sum (redirect s w row) == np_sum row)%Q.
Proof.
  intros Hne Hs. unfold redirect.
  destruct (Qeq_bool (default 0%Q (row !! w)) 0) eqn:E; [reflexivity|].
  assert (Hw : w < length row).
  { destruct (Nat.lt_ge_cases w (length row)) as [|Hge]; [done|].
    rewrite (lookup_ge_None_2 row w Hge) in E. discriminate. }
  rewrite np_sum_add_at by (by rewrite length_insert).
  rewrite np_sum_insert by done. unfold vget. ring.
Qed.

Lemma row_stochastic_wall_tensor (n k w : nat) (P : tensor) :
  has_shape n (length actions) P -> k <= n ->
  row_stochastic k P -> row_stochastic k (wall_tensor w P).
Proof.
  intros Hsh Hk HP s a Hs Ha. rewrite row_of_wall_tensor.
  destruct (Nat.eqb_spec s w) as [->|Hne]; [by apply HP|].
  rewrite np_sum_redirect; [by apply HP | done |].
  rewrite (has_shape_row_of n (length actions)) by (done || lia). lia.
Qed.

Lemma row_stochastic_walls_tensor (n k : nat) (walls : list nat) (P : tensor) :
  has_shape n (length actions) P -> k <= n ->
  row_stochastic k P -> row_stochastic k (walls_tensor walls P).
Proof.
  revert P. induction walls as [|w ws IH]; intros P Hsh Hk HP; simpl; [done|].
  apply IH; [by apply has_shape_wall_tensor | done |].
  by apply (row_stochastic_wall_tensor n).
Qed.

Lemma has_shape_add_grid (n : nat) (p : Q) :
  has_shape (n * n) (length actions) (P (add_grid p (new_builder n false))).
Proof.
  unfold add_grid, new_builder, state_space. cbn [P grid_size].
  rewrite Nat.add_0_r. apply has_shape_grid_tensor, has_shape_zeros.
Qed.

Lemma row_of_add_grid (n : nat) (p : Q) (s : nat) (a : action) :
  s < n * n ->
  row_of (P (add_grid p (new_builder n false))) s (action_index a)
  = grid_row n p s a (np_zeros (n * n)).
Proof.
  intros Hs. unfold add_grid, new_builder, state_space. cbn [P grid_size].
  rewrite Nat.add_0_r, row_of_grid_tensor by done.
  by rewrite row_of_zeros by (done || apply action_index_lt).
Qed.

Lemma row_stochastic_add_grid (n : nat) (p : Q) :
  row_stochastic (n * n) (P (add_grid p (new_builder n false))).
Proof.
  intros s a Hs Ha. destruct (action_of_index a Ha) as [act ->].
  rewrite row_of_add_grid by done. apply np_sum_grid_row.
  intros b. by apply target_lt.
Qed.

(** ** The loop over the walls *)

Lemma add_wall_at_in (w : coord) (b : TransitionMatrixBuilder) :
  in_bounds (grid_size b) w ->
  add_wall_at w b
  = Ok (mkBuilder (grid_size b) (has_terminal_state b) (action_space b)
                  (wall_tensor (flat_index (grid_size b) w) (P b))).
Proof.
  intros Hin. apply in_bounds_spec in Hin. unfold add_wall_at. cbv zeta.
  by rewrite Hin.
Qed.

Lemma add_wall_at_Ok (w : coord) (b b' : TransitionMatrixBuilder) :
  add_wall_at w b = Ok b' -> in_bounds (grid_size b) w.
Proof.
  unfold add_wall_at. cbv zeta.
  destruct (in_grid _ (fst w) && in_grid _ (snd w)) eqn:E; [|discriminate].
  intros _. by apply in_bounds_spec.
Qed.

Lemma for_each_add_wall_at (walls : list coord) (b : TransitionMatrixBuilder) :
  Forall (in_bounds (grid_size b)) walls ->
  for_each add_wall_at walls b
  = Ok (mkBuilder (grid_size b) (has_terminal_state b) (action_space b)
                  (walls_tensor (flat_index (grid_size b) <$> walls) (P b))).
Proof.
  revert b. induction walls as [|w ws IH]; intros b Hw.
  - by destruct b.
  - inversion Hw as [|? ? Hin Hrest]; subst. cbn [for_each].
    rewrite add_wall_at_in by done. simpl.
    rewrite IH by done. reflexivity.
Qed.

Lemma for_each_add_wall_at_Ok (walls : list coord) (b b' : TransitionMatrixBuilder) :
  for_each add_wall_at walls b = Ok b' ->
  Forall (in_bounds (grid_size b)) walls.
Proof.
  revert b. induction walls as [|w ws IH]; intros b H; [constructor|].
  cbn [for_each] in H. inv_bind H.
  pose proof (add_wall_at_Ok _ _ _ Hx) as Hin.
  rewrite add_wall_at_in in Hx by done. inversion Hx; subst x.
  apply IH in H. cbn [grid_size] in H. by constructor.
Qed.

(** For every grid size, success probability and list of walls, each row
    of the built tensor sums to 1. *)
Lemma builder_row_stochastic (n : nat) (p : Q) (walls : list coord)
    (b : TransitionMatrixBuilder) :
  for_each add_wall_at walls (add_grid p (new_builder n false)) = Ok b ->
  row_stochastic (n * n) (P b).
Proof.
  intros H. pose proof (for_each_add_wall_at_Ok _ _ _ H) as Hw.
  rewrite for_each_add_wall_at in H by done. inversion H; subst b. cbn [P].
  apply (row_stochastic_walls_tensor (n * n)); [apply has_shape_add_grid | done |].
  apply row_stochastic_add_grid.
Qed.

(** ** Deterministic rows *)

Lemma indicator_zero (b : bool) : (indicator b == 0)%Q <-> b = false.
Proof. destruct b; simpl; split; intros H; try done; discriminate. Qed.

Lemma bounce_nil (n s : nat) (a : action) : bounce n [] s a = target n s a.
Proof.
  unfold bounce. cbv zeta. rewrite bool_decide_eq_false_2; [done|].
  apply not_elem_of_nil.
Qed.

Lemma bounce_snoc (n : nat) (acc : list nat) (w s : nat) (a : action) :
  bounce n (acc ++ [w]) s a
  = if bool_decide (target n s a ∈ acc) then s
    else if bool_decide (target n s a = w) then s else target n s a.
Proof.
  unfold bounce. cbv zeta.
  destruct (decide (target n s a ∈ acc)) as [Hin|Hnin].
  - rewrite (bool_decide_eq_true_2 (target n s a ∈ acc ++ [w]))
      by (apply elem_of_app; by left).
    by rewrite (bool_decide_eq_true_2 (target n s a ∈ acc)).
  - rewrite (bool_decide_eq_false_2 (target n s a ∈ acc)) by done.
    destruct (decide (target n s a = w)) as [He|Hne].
    + rewrite (bool_decide_eq_true_2 (target n s a ∈ acc ++ [w]))
        by (apply elem_of_app; right; by apply list_elem_of_singleton).
      by rewrite (bool_decide_eq_true_2 (target n s a = w)).
    + rewrite (bool_decide_eq_false_2 (target n s a ∈ acc ++ [w])).
      * by rewrite (bool_decide_eq_false_2 (target n s a = w)).
      * intros [H|H]%elem_of_app; [done|]. by apply list_elem_of_singleton in H.
Qed.

Lemma bounce_snoc_wall (n : nat) (acc : list nat) (w : nat) (a : action) :
  bounce n (acc ++ [w]) w a = bounce n acc w a.
Proof.
  rewrite bounce_snoc. unfold bounce. cbv zeta.
  destruct (bool_decide (target n w a ∈ acc)); [done|].
  by case_bool_decide.
Qed.

Lemma bounce_snoc_other (n : nat) (acc : list nat) (w s : nat) (a : action) :
  bounce n acc s a <> w -> bounce n (acc ++ [w]) s a = bounce n acc s a.
Proof.
  rewrite bounce_snoc. unfold bounce. cbv zeta.
  destruct (bool_decide (target n s a ∈ acc)); [done|].
  intros Hne. by rewrite bool_decide_eq_false_2.
Qed.

Lemma bounce_snoc_hit (n : nat) (acc : list nat) (w s : nat) (a : action) :
  bounce n acc s a = w -> s <> w -> bounce n (acc ++ [w]) s a = s.
Proof.
  rewrite bounce_snoc. unfold bounce. cbv zeta.
  destruct (bool_decide (target n s a ∈ acc)); [done|].
  intros He Hne. by rewrite bool_decide_eq_true_2.
Qed.

Lemma deterministic_add_grid (n : nat) :
  deterministic_rows n [] (P (add_grid 1 (new_builder n false))).
Proof.
  intros s a t Hs Ht. rewrite cell_row_of, row_of_add_grid by done.
  rewrite bounce_nil. unfold grid_row.
  change (Qeq_bool 1 1) with true. cbv iota zeta.
  change (<[target n s a := 1%Q]> (np_zeros (n * n))) with (one_hot (n * n) (target n s a)).
  rewrite vget_one_hot by (by apply target_lt). reflexivity.
Qed.

Lemma deterministic_wall_tensor (n : nat) (acc : list nat) (w : nat) (P : tensor) :
  has_shape (n * n) (length actions) P -> w < n * n ->
  deterministic_rows n acc P ->
  deterministic_rows n (acc ++ [w]) (wall_tensor w P).
Proof.
  intros Hsh Hw HP s a t Hs Ht. rewrite cell_row_of, row_of_wall_tensor.
  destruct (Nat.eqb_spec s w) as [->|Hne].
  { rewrite bounce_snoc_wall, <- cell_row_of. by apply HP. }
  assert (Hlen : length (row_of P s (action_index a)) = n * n).
  { apply (has_shape_row_of _ (length actions)); [done | done | apply action_index_lt]. }
  assert (Hrow : forall x, x < n * n ->
            (vget (row_of P s (action_index a)) x == indicator (x =? bounce n acc s a))%Q).
  { intros x Hx. rewrite <- cell_row_of. by apply HP. }
  unfold redirect. fold (vget (row_of P s (action_index a)) w).
  destruct (Qeq_bool (vget (row_of P s (action_index a)) w) 0) eqn:E.
  - apply Qeq_bool_iff in E. rewrite Hrow in E by done.
    apply indicator_zero in E. apply Nat.eqb_neq in E.
    rewrite bounce_snoc_other by congruence. by apply Hrow.
  - assert (Hb : bounce n acc s a = w).
    { destruct (Nat.eq_dec (bounce n acc s a) w) as [|Hd]; [done|]. exfalso.
      assert (Hz : (vget (row_of P s (action_index a)) w == 0)%Q).
      { rewrite Hrow by done. apply indicator_zero. apply Nat.eqb_neq. congruence. }
      apply Qeq_bool_iff in Hz. congruence. }
    rewrite bounce_snoc_hit by done.
    rewrite vget_add_at by (rewrite length_insert; lia).
    rewrite !vget_insert by lia.
    destruct (Nat.eqb_spec t s) as [->|Hts].
    + destruct (Nat.eqb_spec s w) as [|_]; [done|].
      rewrite !Hrow by done. rewrite Hb, Nat.eqb_refl.
      apply Nat.eqb_neq in Hne. rewrite Hne. reflexivity.
    + destruct (Nat.eqb_spec t w) as [|Htw]; [reflexivity|].
      rewrite Hrow by done. rewrite Hb. apply Nat.eqb_neq in Htw. by rewrite Htw.
Qed.

Lemma deterministic_walls_tensor (n : nat) (walls acc : list nat) (P : tensor) :
  has_shape (n * n) (length actions) P -> Forall (fun w => w < n * n) walls ->
  deterministic_rows n acc P ->
  deterministic_rows n (acc ++ walls) (walls_tensor walls P).
Proof.
  revert acc P. induction walls as [|w ws IH]; intros acc P Hsh Hw HP.
  - by rewrite app_nil_r.
  - inversion Hw as [|? ? Hw1 Hw2]; subst. cbn [walls_tensor foldl].
    rewrite cons_middle, app_assoc. apply IH; [by apply has_shape_wall_tensor | done |].
    by apply deterministic_wall_tensor.
Qed.

(** ** The maze of [__init__] *)

Lemma bind_Ok_l {A B} (a : A) (f : A -> result B) : Ok a ≫= f = f a.
Proof. reflexivity. Qed.

Lemma bind_Raise_l {A B} (e : error) (f : A -> result B) : Raise e ≫= f = Raise e.
Proof. reflexivity. Qed.

Lemma Forall_in_bounds (n : nat) (cs : list coord) :
  forallb (fun c => in_grid n (fst c) && in_grid n (snd c)) cs = true ->
  Forall (in_bounds n) cs.
Proof.
  induction cs as [|c cs IH]; simpl; intros H; [constructor|].
  apply andb_true_iff in H as [H1 H2].
  constructor; [by apply in_bounds_spec | by apply IH].
Qed.

Lemma get_char_matrix_room : get_char_matrix ascii_room = Ok room_chars.
Proof. vm_compute. reflexivity. Qed.

Lemma first_row_room : exists row0, first_row room_chars = Ok row0 /\ length row0 = 9.
Proof. eexists. split; vm_compute; reflexivity. Qed.

Lemma ascii_to_walls_room : ascii_to_walls room_chars = (room_walls, room_open).
Proof. unfold room_walls, room_open. by destruct (ascii_to_walls room_chars). Qed.

Lemma room_walls_in_bounds : Forall (in_bounds 9) room_walls.
Proof. apply Forall_in_bounds. vm_compute. reflexivity. Qed.

Lemma room_open_in_bounds : Forall (in_bounds 9) room_open.
Proof. apply Forall_in_bounds. vm_compute. reflexivity. Qed.

Lemma length_wall_indices : length wall_indices = 41.
Proof. vm_compute. reflexivity. Qed.

Lemma length_open_indices : length open_indices = 40.
Proof. vm_compute. reflexivity. Qed.

Lemma wall_indices_lt : Forall (fun w => w < 9 * 9) wall_indices.
Proof.
  unfold wall_indices. apply Forall_fmap.
  induction room_walls_in_bounds as [|c cs Hc _ IH]; constructor; [|done].
  simpl. by apply flat_index_lt.
Qed.

Lemma collect_open_indices :
  collect (fun e => onehot ← flatten_state e 9 (9 * 9); the_only (np_nonzero onehot))
          room_open
  = Ok open_indices.
Proof. vm_compute. reflexivity. Qed.

Lemma room_P_walls :
  room_P = walls_tensor wall_indices (P (add_grid 1 (new_builder 9 false))).
Proof. unfold room_P, room_tensor_after. rewrite firstn_all. exact eq_refl. Qed.

Lemma initial_distribution_room : initial_distribution open_indices 9 81 = Ok room_p0.
Proof. vm_compute. reflexivity. Qed.

Lemma np_sum_room_p0 : (np_sum room_p0 == 1)%Q.
Proof. vm_compute. reflexivity. Qed.

Lemma one_one_open : 10 ∈ open_indices.
Proof. apply (bool_decide_eq_true_1 (10 ∈ open_indices)). vm_compute. reflexivity. Qed.

Lemma open_wall_disjoint (i : nat) : i ∈ open_indices -> i ∈ wall_indices -> False.
Proof.
  intros Ho Hw.
  assert (H : forallb (fun i => negb (bool_decide (i ∈ wall_indices))) open_indices = true)
    by (vm_compute; reflexivity).
  rewrite forallb_forall in H. apply list_elem_of_In in Ho. specialize (H i Ho).
  by rewrite (bool_decide_eq_true_2 _ Hw) in H.
Qed.

Lemma open_or_wall (i : nat) : i < 81 -> i ∈ open_indices \/ i ∈ wall_indices.
Proof.
  intros Hi.
  assert (H : forallb (fun i => bool_decide (i ∈ open_indices) || bool_decide (i ∈ wall_indices))
                      (seq 0 81) = true) by (vm_compute; reflexivity).
  rewrite forallb_forall in H. specialize (H i).
  apply orb_true_iff in H as [H|H]; [left | right | apply in_seq; lia];
    by apply bool_decide_eq_true_1 in H.
Qed.

Lemma open_indices_lt (i : nat) : i ∈ open_indices -> i < 81.
Proof.
  intros Ho.
  assert (H : forallb (fun i => i <? 81) open_indices = true) by (vm_compute; reflexivity).
  rewrite forallb_forall in H. apply list_elem_of_In in Ho.
  by apply Nat.ltb_lt, H.
Qed.

Lemma uniform_mass : (1 / inject_Z (Z.of_nat (length open_indices)))%Q = (1 # 40)%Q.
Proof. vm_compute. reflexivity. Qed.

Lemma length_room_p0 : length room_p0 = 81.
Proof. unfold room_p0. rewrite length_fmap, length_seq. exact eq_refl. Qed.

Lemma vget_room_p0 (i : nat) :
  i < 81 ->
  vget room_p0 i
  = if bool_decide (i ∈ open_indices)
    then (1 / inject_Z (Z.of_nat (length open_indices)))%Q else 0%Q.
Proof.
  intros Hi. unfold room_p0.
  exact (vget_table
           (fun i => if bool_decide (i ∈ open_indices)
                     then (1 / inject_Z (Z.of_nat (length open_indices)))%Q else 0%Q)
           81 i Hi).
Qed.

Lemma length_ascii_room :
  length ascii_room = 9 /\ Forall (fun r => String.length r = 9) ascii_room.
Proof. vm_compute. split; [reflexivity | repeat constructor]. Qed.

Lemma wall_indices_eq : wall_indices = flat_index 9 <$> room_walls.
Proof. unfold wall_indices. exact eq_refl. Qed.

#[local] Opaque wall_indices open_indices room_walls room_open room_chars room_p0.

Lemma build_room_eq :
  build_room room_chars 9 = Ok (open_indices, mkBuilder 9 false 4 room_P).
Proof.
  unfold build_room. rewrite ascii_to_walls_room.
  rewrite collect_open_indices, bind_Ok_l.
  rewrite for_each_add_wall_at by apply room_walls_in_bounds.
  rewrite bind_Ok_l, room_P_walls. exact eq_refl.
Qed.

Lemma has_shape_room_tensor_after (k : nat) :
  has_shape 81 4 (room_tensor_after k).
Proof.
  unfold room_tensor_after. apply has_shape_walls_tensor.
  apply (has_shape_add_grid 9).
Qed.

Lemma has_shape_room_P : has_shape 81 4 room_P.
Proof. apply has_shape_room_tensor_after. Qed.

Lemma length_room_P : length room_P = 81.
Proof. apply has_shape_room_P. Qed.

Lemma deterministic_room_P : deterministic_rows 9 wall_indices room_P.
Proof.
  rewrite room_P_walls.
  pose proof (deterministic_walls_tensor 9 wall_indices [] _
                (has_shape_add_grid 9 1) wall_indices_lt
                (deterministic_add_grid 9)) as H.
  rewrite app_nil_l in H. exact H.
Qed.

Lemma length_room_R (goal : coord) : length (room_R goal) = 81.
Proof. unfold room_R. by rewrite length_fmap, length_seq. Qed.

Lemma create_reward_matrix_room (goal : coord) :
  in_bounds 9 goal ->
  create_reward_matrix (length room_P) 9 [(goal, 1%Q)] 4 = Ok (room_R goal).
Proof.
  intros Hg. unfold create_reward_matrix.
  rewrite bool_decide_eq_true_2 by apply NoDup_singleton.
  rewrite length_room_P. cbn [collect].
  rewrite flatten_state_in by (done || apply (flat_index_lt 9 goal Hg)).
  rewrite bind_Ok_l.
  rewrite np_argmax_one_hot by apply (flat_index_lt 9 goal Hg).
  reflexivity.
Qed.

Lemma create_reward_matrix_room_out (goal : coord) :
  ~ in_bounds 9 goal ->
  create_reward_matrix (length room_P) 9 [(goal, 1%Q)] 4 = Raise OutOfBoundsError.
Proof.
  intros Hg. unfold create_reward_matrix.
  rewrite bool_decide_eq_true_2 by apply NoDup_singleton.
  cbn [collect]. by rewrite flatten_state_out.
Qed.

(** [__init__] succeeds exactly for the goals on the grid. *)
Lemma GridWorldMDP_init_in (goal : coord) :
  in_bounds 9 goal -> GridWorldMDP_init goal = Ok (room_mdp goal).
Proof.
  intros Hg. unfold GridWorldMDP_init.
  rewrite get_char_matrix_room, bind_Ok_l.
  destruct first_row_room as (row0 & Hrow & Hlen).
  rewrite Hrow, bind_Ok_l. cbv zeta. rewrite Hlen.
  rewrite build_room_eq, bind_Ok_l. cbn [P grid_size action_space].
  rewrite create_reward_matrix_room, bind_Ok_l by done.
  rewrite length_room_R, initial_distribution_room, bind_Ok_l.
  reflexivity.
Qed.

Lemma GridWorldMDP_init_out (goal : coord) :
  ~ in_bounds 9 goal -> GridWorldMDP_init goal = Raise OutOfBoundsError.
Proof.
  intros Hg. unfold GridWorldMDP_init.
  rewrite get_char_matrix_room, bind_Ok_l.
  destruct first_row_room as (row0 & Hrow & Hlen).
  rewrite Hrow, bind_Ok_l. cbv zeta. rewrite Hlen.
  rewrite build_room_eq, bind_Ok_l. cbn [P grid_size action_space].
  by rewrite create_reward_matrix_room_out.
Qed.

Lemma in_bounds_dec (n : nat) (c : coord) : {in_bounds n c} + {~ in_bounds n c}.
Proof.
  destruct (in_grid n (fst c) && in_grid n (snd c)) eqn:E.
  - left. by apply in_bounds_spec.
  - right. rewrite <- in_bounds_spec. congruence.
Qed.

Lemma GridWorldMDP_init_Ok (goal : coord) (self : GridWorldMDP) :
  GridWorldMDP_init goal = Ok self -> in_bounds 9 goal /\ self = room_mdp goal.
Proof.
  intros H. destruct (in_bounds_dec 9 goal) as [Hg|Hg].
  - rewrite GridWorldMDP_init_in in H by done. by inversion H.
  - rewrite GridWorldMDP_init_out in H by done. discriminate.
Qed.

(** ** The reward matrix *)

Lemma entry_table (F : nat -> nat -> Q) (n k s a : nat) :
  s < n -> a < k ->
  entry ((fun s => (fun a => F s a) <$> seq 0 k) <$> seq 0 n) s a = F s a.
Proof.
  intros Hs Ha. unfold entry. rewrite list_lookup_fmap.
  rewrite (lookup_seq_lt 0 n s Hs). simpl.
  rewrite list_lookup_fmap, (lookup_seq_lt 0 k a Ha). exact eq_refl.
Qed.

Lemma shape_table (F : nat -> nat -> Q) (n k : nat) :
  length ((fun s => (fun a => F s a) <$> seq 0 k) <$> seq 0 n) = n /\
  Forall (fun r => length r = k) ((fun s => (fun a => F s a) <$> seq 0 k) <$> seq 0 n).
Proof.
  split; [by rewrite length_fmap, length_seq|].
  apply Forall_fmap, Forall_forall. intros s _. simpl.
  by rewrite length_fmap, length_seq.
Qed.

Lemma shape_room_R (goal : coord) :
  length (room_R goal) = 81 /\ Forall (fun r => length r = 4) (room_R goal).
Proof.
  unfold room_R.
  exact (shape_table
           (fun s a => np_sum [goal_term (open_grid 81 9 4) s a (flat_index 9 goal, 1%Q)])
           81 4).
Qed.

(** ** Steps of the wall loop on the maze *)

Lemma room_tensor_after_S (k w : nat) :
  wall_indices !! k = Some w ->
  room_tensor_after (S k) = wall_tensor w (room_tensor_after k).
Proof.
  intros Hk. unfold room_tensor_after, walls_tensor.
  rewrite (take_S_r _ _ _ Hk), foldl_app. exact eq_refl.
Qed.

Lemma row_stochastic_room_tensor_after (k : nat) :
  row_stochastic 81 (room_tensor_after k).
Proof.
  unfold room_tensor_after.
  apply (row_stochastic_walls_tensor 81); [apply (has_shape_add_grid 9) | done |].
  apply (row_stochastic_add_grid 9).
Qed.

Lemma for_each_take_room_walls (k : nat) :
  for_each add_wall_at (take k room_walls) (add_grid 1 (new_builder 9 false))
  = Ok (mkBuilder 9 false 4 (room_tensor_after k)).
Proof.
  rewrite for_each_add_wall_at.
  - unfold room_tensor_after. rewrite wall_indices_eq, fmap_take. exact eq_refl.
  - apply Forall_take, room_walls_in_bounds.
Qed.

Lemma cell_wall_tensor (n k w : nat) (P : tensor) (s a : nat) :
  has_shape n k P -> s < n -> w < n -> a < k -> s <> w ->
  (cell (wall_tensor w P) s a w == 0)%Q /\
  (cell (wall_tensor w P) s a s == cell P s a s + cell P s a w)%Q.
Proof.
  intros Hsh Hs Hw Ha Hne. rewrite !cell_row_of, row_of_wall_tensor.
  assert (Hsw : (s =? w) = false) by (by apply Nat.eqb_neq).
  assert (Hws : (w =? s) = false) by (apply Nat.eqb_neq; lia).
  rewrite Hsw.
  pose proof (has_shape_row_of n k P s a Hsh Hs Ha) as Hlen.
  unfold redirect. fold (vget (row_of P s a) w).
  destruct (Qeq_bool (vget (row_of P s a) w) 0) eqn:E.
  - apply Qeq_bool_iff in E. split; [exact E | rewrite E; ring].
  - rewrite !vget_add_at by (rewrite length_insert; lia).
    rewrite !vget_insert by lia.
    rewrite !Nat.eqb_refl, Hws, Hsw. split; reflexivity.
Qed.

(** * The constructed object *)

Lemma room_mdp_fields (goal : coord) :
  transition (room_mdp goal) = room_P /\ reward (room_mdp goal) = room_R goal /\
  p0 (room_mdp goal) = room_p0 /\ size (room_mdp goal) = 9 /\
  num_states (room_mdp goal) = 81 /\ terminal_states (room_mdp goal) = [] /\
  has_absorbing_state (room_mdp goal) = false /\ human_state (room_mdp goal) = None /\
  seed (room_mdp goal) = 1337%Z /\ current_state (room_mdp goal) = None.
Proof.
  unfold room_mdp, base_init.
  cbn [transition reward p0 size num_states terminal_states has_absorbing_state
       human_state seed current_state].
  rewrite length_room_P. repeat split.
Qed.

Lemma wall_index_lt (w : nat) : w ∈ wall_indices -> w < 81.
Proof.
  intros Hw. pose proof wall_indices_lt as H. rewrite Forall_forall in H.
  apply list_elem_of_In in Hw. exact (H w Hw).
Qed.

Lemma bounce_not_wall (s w : nat) (a : action) :
  s ∈ open_indices -> w ∈ wall_indices -> bounce 9 wall_indices s a <> w.
Proof.
  intros Hs Hw. unfold bounce. cbv zeta. case_bool_decide as Ht.
  - intros ->. exact (open_wall_disjoint _ Hs Hw).
  - intros He. apply Ht. by rewrite He.
Qed.

(** * The claims *)

(** C1: for every state (open or wall) and every action, the row
    [P[s,a,:]] of the transition tensor sums to 1: after [add_grid] and the
    first [k] calls of [add_wall_at] of the construction loop, for every
    [k], and in the tensor of the constructed object. *)
Theorem transition_rows_sum_to_one (goal : coord) (self : GridWorldMDP)
    (k : nat) (b : TransitionMatrixBuilder) (s a : nat) :
  GridWorldMDP_init goal = Ok self ->
  for_each add_wall_at (take k room_walls) (add_grid 1 (new_builder 9 false)) = Ok b ->
  s < 81 -> a < 4 ->
  (np_sum (row_of (P b) s a) == 1)%Q /\
  (np_sum (row_of (transition self) s a) == 1)%Q.
Proof.
  intros Hinit Hb Hs Ha. apply GridWorldMDP_init_Ok in Hinit as [_ ->].
  destruct (room_mdp_fields goal) as (-> & _). split.
  - exact (builder_row_stochastic 9 1 _ b Hb s a Hs Ha).
  - exact (row_stochastic_room_tensor_after (length wall_indices) s a Hs Ha).
Qed.

Lemma transition_rows_sum_to_one_witness :
  (np_sum (row_of (room_tensor_after 3) 10 0) == 1)%Q /\
  (np_sum (row_of (transition (room_mdp (2, 2)%Z)) 10 0) == 1)%Q.
Proof.
  apply (transition_rows_sum_to_one (2, 2)%Z (room_mdp (2, 2)%Z) 3
           (mkBuilder 9 false 4 (room_tensor_after 3)) 10 0).
  - apply GridWorldMDP_init_in. unfold in_bounds. simpl. lia.
  - apply for_each_take_room_walls.
  - lia.
  - lia.
Defined.

(** C3: the initial distribution sums to 1; an entry is positive exactly at
    the flat indices of the open cells, where it is 1/|open cells|, and 0
    elsewhere; the index of (1,1) holds 1/40 and no mass of 1 from the
    one-hot vector that the construction starts from. *)
Theorem initial_distribution_uniform (goal : coord) (self : GridWorldMDP) (i : nat) :
  GridWorldMDP_init goal = Ok self -> i < 81 ->
  (np_sum (p0 self) == 1)%Q /\
  length (p0 self) = 81 /\
  ((0 < vget (p0 self) i)%Q <-> i ∈ open_indices) /\
  (i ∈ open_indices ->
   vget (p0 self) i = (1 / inject_Z (Z.of_nat (length open_indices)))%Q) /\
  (i ∉ open_indices -> vget (p0 self) i = 0%Q) /\
  vget (p0 self) (flat_index 9 (1, 1)%Z) = (1 # 40)%Q.
Proof.
  intros Hinit Hi. apply GridWorldMDP_init_Ok in Hinit as [_ ->].
  destruct (room_mdp_fields goal) as (_ & _ & -> & _).
  split; [exact np_sum_room_p0|]. split; [exact length_room_p0|].
  rewrite (vget_room_p0 i Hi), uniform_mass.
  split; [|split; [|split]].
  - case_bool_decide as Ho; split; intros H; done.
  - intros Ho. by rewrite bool_decide_eq_true_2.
  - intros Ho. by rewrite bool_decide_eq_false_2.
  - change (flat_index 9 (1, 1)%Z) with 10.
    rewrite (vget_room_p0 10) by lia.
    rewrite (bool_decide_eq_true_2 _ one_one_open). exact uniform_mass.
Qed.

Lemma initial_distribution_uniform_witness :
  (np_sum (p0 (room_mdp (2, 2)%Z)) == 1)%Q /\
  length (p0 (room_mdp (2, 2)%Z)) = 81 /\
  ((0 < vget (p0 (room_mdp (2, 2)%Z)) 12)%Q <-> 12 ∈ open_indices) /\
  (12 ∈ open_indices ->
   vget (p0 (room_mdp (2, 2)%Z)) 12 = (1 / inject_Z (Z.of_nat (length open_indices)))%Q) /\
  (12 ∉ open_indices -> vget (p0 (room_mdp (2, 2)%Z)) 12 = 0%Q) /\
  vget (p0 (room_mdp (2, 2)%Z)) (flat_index 9 (1, 1)%Z) = (1 # 40)%Q.
Proof.
  apply (initial_distribution_uniform (2, 2)%Z (room_mdp (2, 2)%Z) 12).
  - apply GridWorldMDP_init_in. unfold in_bounds. simpl. lia.
  - lia.
Defined.

(** C4: with [p_success = 1] no wall cell is reachable from an open cell:
    [P[s,a,w] == 0] for every open state [s], action [a] and wall index
    [w]; an action whose grid target is a wall leaves the agent where it is
    ([P[s,a,s] == 1]); and each [add_wall_at] empties the wall column of
    the row and adds that mass to the self-transition of the row. *)
Theorem walls_unreachable (goal : coord) (self : GridWorldMDP) (s w : nat) (a : action) :
  GridWorldMDP_init goal = Ok self -> s ∈ open_indices -> w ∈ wall_indices ->
  (cell (transition self) s (action_index a) w == 0)%Q /\
  (target 9 s a ∈ wall_indices ->
   (cell (transition self) s (action_index a) s == 1)%Q) /\
  (forall k wk, wall_indices !! k = Some wk ->
     (cell (room_tensor_after (S k)) s (action_index a) wk == 0)%Q /\
     (cell (room_tensor_after (S k)) s (action_index a) s
      == cell (room_tensor_after k) s (action_index a) s
         + cell (room_tensor_after k) s (action_index a) wk)%Q).
Proof.
  intros Hinit Hs Hw. apply GridWorldMDP_init_Ok in Hinit as [_ ->].
  destruct (room_mdp_fields goal) as (-> & _).
  pose proof (open_indices_lt s Hs) as Hs81.
  pose proof (wall_index_lt w Hw) as Hw81.
  split; [|split].
  - rewrite (deterministic_room_P s a w Hs81 Hw81).
    apply indicator_zero, Nat.eqb_neq. intros He.
    by apply (bounce_not_wall s w a Hs Hw).
  - intros Ht. rewrite (deterministic_room_P s a s Hs81 Hs81).
    unfold bounce. cbv zeta. rewrite (bool_decide_eq_true_2 _ Ht).
    by rewrite Nat.eqb_refl.
  - intros k wk Hk. rewrite (room_tensor_after_S k wk Hk).
    assert (Hwk : wk ∈ wall_indices) by (apply list_elem_of_lookup; eauto).
    apply (cell_wall_tensor 81 4).
    + apply has_shape_room_tensor_after.
    + exact Hs81.
    + exact (wall_index_lt wk Hwk).
    + apply action_index_lt.
    + intros ->. exact (open_wall_disjoint _ Hs Hwk).
Qed.

Lemma nine_is_wall : 9 ∈ wall_indices.
Proof. apply (bool_decide_eq_true_1 (9 ∈ wall_indices)). vm_compute. reflexivity. Qed.

Lemma walls_unreachable_witness :
  (cell (transition (room_mdp (2, 2)%Z)) 10 (action_index LEFT) 9 == 0)%Q /\
  (target 9 10 LEFT ∈ wall_indices ->
   (cell (transition (room_mdp (2, 2)%Z)) 10 (action_index LEFT) 10 == 1)%Q) /\
  (forall k wk, wall_indices !! k = Some wk ->
     (cell (room_tensor_after (S k)) 10 (action_index LEFT) wk == 0)%Q /\
     (cell (room_tensor_after (S k)) 10 (action_index LEFT) 10
      == cell (room_tensor_after k) 10 (action_index LEFT) 10
         + cell (room_tensor_after k) 10 (action_index LEFT) wk)%Q).
Proof.
  apply (walls_unreachable (2, 2)%Z (room_mdp (2, 2)%Z) 10 9 LEFT).
  - apply GridWorldMDP_init_in. unfold in_bounds. simpl. lia.
  - exact one_one_open.
  - exact nine_is_wall.
Defined.

(** C5: for every coordinate on the grid, and with no absorbing state,
    [flatten_state] gives the one-hot vector with its 1 at
    [size*row + col] and [unflatten_state] of that vector gives the
    coordinate back. *)
Theorem unflatten_flatten_roundtrip (goal : coord) (self : GridWorldMDP) (c : coord) :
  GridWorldMDP_init goal = Ok self -> in_bounds (size self) c ->
  has_absorbing_state self = false /\
  mdp_flatten_state self c
  = Ok (one_hot (num_states self) (flat_index (size self) c)) /\
  mdp_flatten_state self c ≫= mdp_unflatten_state self = Ok (Some c).
Proof.
  intros Hinit. apply GridWorldMDP_init_Ok in Hinit as [_ ->].
  destruct (room_mdp_fields goal) as (_ & _ & _ & Hsize & Hnum & _ & Habs & _).
  unfold mdp_flatten_state, mdp_unflatten_state. rewrite Hsize, Hnum, Habs.
  intros Hc. split; [done|]. split.
  - apply flatten_state_in; [done|]. apply (flat_index_lt 9 c Hc).
  - apply (unflatten_flatten c 9 81 Hc). lia.
Qed.

Lemma unflatten_flatten_roundtrip_witness :
  has_absorbing_state (room_mdp (2, 2)%Z) = false /\
  mdp_flatten_state (room_mdp (2, 2)%Z) (3, 7)%Z
  = Ok (one_hot (num_states (room_mdp (2, 2)%Z))
                (flat_index (size (room_mdp (2, 2)%Z)) (3, 7)%Z)) /\
  mdp_flatten_state (room_mdp (2, 2)%Z) (3, 7)%Z
    ≫= mdp_unflatten_state (room_mdp (2, 2)%Z) = Ok (Some (3, 7)%Z).
Proof.
  apply (unflatten_flatten_roundtrip (2, 2)%Z (room_mdp (2, 2)%Z) (3, 7)%Z).
  - apply GridWorldMDP_init_in. unfold in_bounds. simpl. lia.
  - destruct (room_mdp_fields (2, 2)%Z) as (_ & _ & _ & -> & _).
    unfold in_bounds. simpl. lia.
Defined.

(** C6: [flatten_state] raises [OutOfBoundsError] when the row or the
    column is outside [[0,size)]; on the grid it returns a vector of length
    [num_states] whose entry at [size*row + col] is 1 and whose other
    entries are 0. *)
Theorem flatten_state_bounds (goal : coord) (self : GridWorldMDP) (c : coord) :
  GridWorldMDP_init goal = Ok self ->
  (~ in_bounds (size self) c -> mdp_flatten_state self c = Raise OutOfBoundsError) /\
  (in_bounds (size self) c ->
   exists v, mdp_flatten_state self c = Ok v /\ length v = num_states self /\
     forall i, i < num_states self ->
       v !! i = Some (indicator (i =? Z.to_nat (Z.of_nat (size self) * fst c + snd c)))).
Proof.
  intros Hinit. apply GridWorldMDP_init_Ok in Hinit as [_ ->].
  destruct (room_mdp_fields goal) as (_ & _ & _ & Hsize & Hnum & _).
  unfold mdp_flatten_state. rewrite Hsize, Hnum. split.
  - apply flatten_state_out.
  - intros Hc. pose proof (flat_index_lt 9 c Hc) as Hlt.
    exists (one_hot 81 (flat_index 9 c)). split; [|split].
    + by apply flatten_state_in.
    + apply length_one_hot.
    + intros i Hi. by apply lookup_one_hot.
Qed.

Lemma flatten_state_bounds_witness :
  mdp_flatten_state (room_mdp (2, 2)%Z) (9, 0)%Z = Raise OutOfBoundsError /\
  exists v, mdp_flatten_state (room_mdp (2, 2)%Z) (3, 7)%Z = Ok v /\
    length v = num_states (room_mdp (2, 2)%Z) /\
    forall i, i < num_states (room_mdp (2, 2)%Z) ->
      v !! i = Some (indicator (i =? Z.to_nat (Z.of_nat (size (room_mdp (2, 2)%Z)) * 3 + 7))).
Proof.
  assert (Hinit : GridWorldMDP_init (2, 2)%Z = Ok (room_mdp (2, 2)%Z)).
  { apply GridWorldMDP_init_in. unfold in_bounds. simpl. lia. }
  destruct (room_mdp_fields (2, 2)%Z) as (_ & _ & _ & Hsize & _).
  split.
  - apply (flatten_state_bounds (2, 2)%Z (room_mdp (2, 2)%Z) (9, 0)%Z Hinit).
    rewrite Hsize. unfold in_bounds. simpl. lia.
  - apply (flatten_state_bounds (2, 2)%Z (room_mdp (2, 2)%Z) (3, 7)%Z Hinit).
    rewrite Hsize. unfold in_bounds. simpl. lia.
Defined.

Lemma get_current_state_Ok (self : GridWorldMDP) (c : list Q) :
  get_current_state self = Ok c <-> current_state self = Some c.
Proof.
  unfold get_current_state. destruct (current_state self); split; intros H;
    by inversion H.
Qed.

Lemma unflatten_set_human_state (h : option coord) (self : GridWorldMDP) (c : list Q) :
  mdp_unflatten_state (set_human_state h self) c = mdp_unflatten_state self c.
Proof. reflexivity. Qed.

(** C7: after [reset()] and after [step(action)] the field [human_state]
    is [unflatten_state] of the resulting current state.  [reset] returns
    exactly when the runtime of the base class returns with a current state
    that [unflatten_state] decodes, and then gives that current state and
    the object of the runtime with the decoding as [human_state]; likewise
    [step], which passes on the tuple of the runtime.  [has_absorbing_state]
    is true exactly when the list of terminal states is not empty: for the
    object that lines 64-72 build from any tuple of terminal coordinates,
    and so for a constructed object, whose tuple is empty. *)
Theorem human_state_follows_current_state {Info : Type}
    (base_reset : GridWorldMDP -> result GridWorldMDP)
    (base_step : nat -> GridWorldMDP
                 -> result ((list Q * Q * bool * Info) * GridWorldMDP))
    (self : GridWorldMDP) :
  (forall c self',
     (reset base_reset self = Ok (c, self')) <->
     (exists self1 h, base_reset self = Ok self1 /\ current_state self1 = Some c /\
                      mdp_unflatten_state self1 c = Ok h /\
                      self' = set_human_state h self1)) /\
  (forall c self', reset base_reset self = Ok (c, self') ->
     current_state self' = Some c /\
     mdp_unflatten_state self' c = Ok (human_state self')) /\
  (forall action ret self',
     (step base_step action self = Ok (ret, self')) <->
     (exists self1 c h, base_step action self = Ok (ret, self1) /\
                        current_state self1 = Some c /\
                        mdp_unflatten_state self1 c = Ok h /\
                        self' = set_human_state h self1)) /\
  (forall action ret self', step base_step action self = Ok (ret, self') ->
     exists c, current_state self' = Some c /\
               mdp_unflatten_state self' c = Ok (human_state self')) /\
  (forall P R p0 n terminal_coords,
     (has_absorbing_state (finish_init P R p0 n terminal_coords) = true <->
      terminal_states (finish_init P R p0 n terminal_coords) <> [])) /\
  (forall goal, GridWorldMDP_init goal = Ok self ->
     (exists P R p0 n, self = finish_init P R p0 n []) /\
     (has_absorbing_state self = true <-> terminal_states self <> [])).
Proof.
  assert (Hreset : forall c self',
     (reset base_reset self = Ok (c, self')) <->
     (exists self1 h, base_reset self = Ok self1 /\ current_state self1 = Some c /\
                      mdp_unflatten_state self1 c = Ok h /\
                      self' = set_human_state h self1)).
  { intros c self'. unfold reset. split.
    - intros H. bind_inv H as self1 Hbase. bind_inv H as c1 Hc1. bind_inv H as h Hh.
      cbv zeta in H. bind_inv H as c2 Hc2. inversion H; subst c2 self'.
      apply get_current_state_Ok in Hc1, Hc2.
      assert (c = c1) as -> by (cbn [set_human_state current_state] in Hc2; congruence).
      by exists self1, h.
    - intros (self1 & h & Hbase & Hc & Hh & ->).
      rewrite Hbase, bind_Ok_l.
      apply get_current_state_Ok in Hc. rewrite Hc, bind_Ok_l, Hh, bind_Ok_l.
      cbv zeta.
      assert (Hc' : get_current_state (set_human_state h self1) = Ok c) by exact Hc.
      by rewrite Hc', bind_Ok_l. }
  assert (Hstep : forall action ret self',
     (step base_step action self = Ok (ret, self')) <->
     (exists self1 c h, base_step action self = Ok (ret, self1) /\
                        current_state self1 = Some c /\
                        mdp_unflatten_state self1 c = Ok h /\
                        self' = set_human_state h self1)).
  { intros action ret self'. unfold step. split.
    - intros H. bind_inv H as r Hbase. destruct r as [ret1 self1].
      bind_inv H as c1 Hc1. bind_inv H as h Hh. inversion H; subst ret self'.
      apply get_current_state_Ok in Hc1. by exists self1, c1, h.
    - intros (self1 & c & h & Hbase & Hc & Hh & ->).
      rewrite Hbase, bind_Ok_l.
      apply get_current_state_Ok in Hc. by rewrite Hc, bind_Ok_l, Hh, bind_Ok_l. }
  assert (Habs : forall P R p0 n terminal_coords,
     (has_absorbing_state (finish_init P R p0 n terminal_coords) = true <->
      terminal_states (finish_init P R p0 n terminal_coords) <> [])).
  { intros P R p0 n terminal_coords. unfold finish_init, base_init.
    cbn [has_absorbing_state terminal_states]. rewrite length_fmap.
    destruct terminal_coords as [|t ts]; cbn; split; (done || congruence). }
  split; [exact Hreset|]. split; [|split; [exact Hstep|split; [|split; [exact Habs|]]]].
  - intros c self' H. apply Hreset in H as (self1 & h & _ & Hc & Hh & ->).
    split; [exact Hc|]. by rewrite unflatten_set_human_state.
  - intros action ret self' H. apply Hstep in H as (self1 & c & h & _ & Hc & Hh & ->).
    exists c. split; [exact Hc|]. by rewrite unflatten_set_human_state.
  - intros goal Hinit. apply GridWorldMDP_init_Ok in Hinit as [_ ->]. split.
    + exists room_P, (room_R goal), room_p0, 9. exact eq_refl.
    + apply (Habs room_P (room_R goal) room_p0 9 []).
Qed.

Lemma human_state_follows_current_state_witness :
  let base_reset := fun m => Ok (set_current_state (one_hot 81 10) m) in
  let base_step := fun (_ : nat) m =>
    Ok ((one_hot 81 11, 0%Q, false, tt), set_current_state (one_hot 81 11) m) in
  let self := room_mdp (2, 2)%Z in
  (exists self', reset base_reset self = Ok (one_hot 81 10, self') /\
     current_state self' = Some (one_hot 81 10) /\
     mdp_unflatten_state self' (one_hot 81 10) = Ok (human_state self') /\
     human_state self' = Some (1, 1)%Z) /\
  (exists self', step base_step 1 self = Ok ((one_hot 81 11, 0%Q, false, tt), self') /\
     human_state self' = Some (1, 2)%Z /\
     exists c, current_state self' = Some c /\
               mdp_unflatten_state self' c = Ok (human_state self')) /\
  (has_absorbing_state (finish_init [] [] [] 2 [(1, 1)%Z]) = true) /\
  (has_absorbing_state self = true <-> terminal_states self <> []).
Proof.
  intros base_reset base_step self.
  destruct (human_state_follows_current_state base_reset base_step self)
    as (Hr & Hr' & Hs & Hs' & Ha & Hi).
  split; [|split; [|split]].
  - exists (set_human_state (Some (1, 1)%Z) (set_current_state (one_hot 81 10) self)).
    assert (H : reset base_reset self
                = Ok (one_hot 81 10,
                      set_human_state (Some (1, 1)%Z)
                                      (set_current_state (one_hot 81 10) self))).
    { apply Hr. exists (set_current_state (one_hot 81 10) self), (Some (1, 1)%Z).
      split; [reflexivity|]. split; [reflexivity|]. split; [|reflexivity].
      vm_compute. reflexivity. }
    split; [exact H|]. destruct (Hr' _ _ H) as [Hc Hh].
    split; [exact Hc|]. split; [exact Hh|]. reflexivity.
  - exists (set_human_state (Some (1, 2)%Z) (set_current_state (one_hot 81 11) self)).
    assert (H : step base_step 1 self
                = Ok ((one_hot 81 11, 0%Q, false, tt),
                      set_human_state (Some (1, 2)%Z)
                                      (set_current_state (one_hot 81 11) self))).
    { apply Hs. exists (set_current_state (one_hot 81 11) self), (one_hot 81 11),
                       (Some (1, 2)%Z).
      split; [reflexivity|]. split; [reflexivity|]. split; [|reflexivity].
      vm_compute. reflexivity. }
    split; [exact H|]. split; [reflexivity|]. exact (Hs' _ _ _ H).
  - apply Ha. vm_compute. discriminate.
  - apply (Hi (2, 2)%Z). apply GridWorldMDP_init_in. unfold in_bounds. simpl. lia.
Defined.

(** C9: whatever the goal, a constructed object comes from the nine rows of
    nine characters of the room: its size is 9, its transition tensor has
    shape (81, 4, 81), its list of terminal states is empty and
    [has_absorbing_state] is false. *)
Theorem room_shape (goal : coord) (self : GridWorldMDP) :
  GridWorldMDP_init goal = Ok self ->
  length ascii_room = 9 /\ Forall (fun r => String.length r = 9) ascii_room /\
  size self = 9 /\ has_shape 81 4 (transition self) /\ num_states self = 81 /\
  terminal_states self = [] /\ has_absorbing_state self = false.
Proof.
  intros Hinit. apply GridWorldMDP_init_Ok in Hinit as [_ ->].
  destruct (room_mdp_fields goal) as (-> & _ & _ & -> & -> & -> & -> & _).
  destruct length_ascii_room as [HL HF].
  split; [exact HL|]. split; [exact HF|]. split; [exact eq_refl|].
  split; [exact has_shape_room_P|]. repeat split.
Qed.

Lemma room_shape_witness :
  length ascii_room = 9 /\ Forall (fun r => String.length r = 9) ascii_room /\
  size (room_mdp (7, 1)%Z) = 9 /\ has_shape 81 4 (transition (room_mdp (7, 1)%Z)) /\
  num_states (room_mdp (7, 1)%Z) = 81 /\
  terminal_states (room_mdp (7, 1)%Z) = [] /\
  has_absorbing_state (room_mdp (7, 1)%Z) = false.
Proof.
  apply (room_shape (7, 1)%Z). apply GridWorldMDP_init_in.
  unfold in_bounds. simpl. lia.
Defined.

(** C10: [set_current_state_to(coord)] replaces the current state by the
    one-hot vector of the flat index of [coord] and changes nothing else;
    [human_state] keeps its value, which on a freshly constructed object is
    the pair (None, None). *)
Theorem set_current_state_to_frame (self self' : GridWorldMDP) (c : coord)
    (ret : list Q) :
  set_current_state_to c self = Ok (ret, self') ->
  human_state self' = human_state self /\
  ret = one_hot (num_states self) (flat_index (size self) c) /\
  self' = set_current_state ret self /\
  (forall goal, GridWorldMDP_init goal = Ok self -> human_state self' = None).
Proof.
  intros H. unfold set_current_state_to, mdp_flatten_state in H.
  bind_inv H as onehot Hflat. apply flatten_state_Ok in Hflat as (Hin & Hlt & ->).
  rewrite np_argmax_one_hot, bind_Ok_l in H by done.
  unfold base_set_current_state_to in H.
  apply Nat.ltb_lt in Hlt. rewrite Hlt in H. inversion H; subst ret self'.
  split; [reflexivity|]. split; [reflexivity|]. split; [reflexivity|].
  intros goal Hinit. apply GridWorldMDP_init_Ok in Hinit as [_ ->].
  cbn [set_current_state human_state].
  by destruct (room_mdp_fields goal) as (_ & _ & _ & _ & _ & _ & _ & -> & _).
Qed.

Lemma set_current_state_to_room (goal c : coord) :
  in_bounds 9 c ->
  set_current_state_to c (room_mdp goal)
  = Ok (one_hot 81 (flat_index 9 c),
        set_current_state (one_hot 81 (flat_index 9 c)) (room_mdp goal)).
Proof.
  intros Hc. pose proof (flat_index_lt 9 c Hc) as Hlt.
  destruct (room_mdp_fields goal) as (_ & _ & _ & Hsize & Hnum & _).
  unfold set_current_state_to, mdp_flatten_state, base_set_current_state_to.
  rewrite Hsize, Hnum. rewrite flatten_state_in, bind_Ok_l by done.
  rewrite np_argmax_one_hot, bind_Ok_l by done.
  assert (Hb : (flat_index 9 c <? 81) = true) by (apply Nat.ltb_lt; lia).
  by rewrite Hb.
Qed.

Lemma set_current_state_to_frame_witness :
  let self := room_mdp (2, 2)%Z in
  let ret := one_hot 81 (flat_index 9 (3, 7)%Z) in
  let self' := set_current_state ret self in
  human_state self' = human_state self /\
  ret = one_hot (num_states self) (flat_index (size self) (3, 7)%Z) /\
  self' = set_current_state ret self /\
  (forall goal, GridWorldMDP_init goal = Ok self -> human_state self' = None).
Proof.
  intros self ret self'.
  apply (set_current_state_to_frame self self' (3, 7)%Z ret).
  apply set_current_state_to_room. unfold in_bounds. simpl. lia.
Defined.

(** * Further properties of the code *)

(** ** The loop over the open cells (lines 51-54) *)

Lemma np_nonzero_zeros (m : nat) (f : nat -> nat) :
  omap (fun '(i, x) => if Qeq_bool x 0 then None else Some i)
       (imap (fun i x => (f i, x)) (replicate m 0%Q)) = [].
Proof.
  revert f. induction m as [|m IH]; intros f; [done|].
  cbn [replicate]. rewrite imap_cons. cbn [omap list_omap].
  change (Qeq_bool 0 0) with true. cbv iota.
  exact (IH (fun i => f (S i))).
Qed.

Lemma np_nonzero_one_hot (n i : nat) : i < n -> np_nonzero (one_hot n i) = [i].
Proof.
  intros Hi. unfold np_nonzero, one_hot, np_zeros.
  rewrite insert_replicate_lt by done. rewrite imap_app, omap_app.
  rewrite (np_nonzero_zeros i (fun j => j)). rewrite imap_cons.
  cbn [omap list_omap app]. change (Qeq_bool 1 0) with false. cbv iota.
  rewrite length_replicate, Nat.add_0_r. f_equal.
  exact (np_nonzero_zeros (n - S i) (fun j => i + S j)).
Qed.

(** Lines 51-54: for coordinates on the grid the loop yields exactly their
    flat indices [size*row + col], in order. *)
Theorem open_cells_to_indices (n : nat) (cs : list coord) :
  Forall (in_bounds n) cs ->
  collect (fun e => onehot ← flatten_state e n (n * n); the_only (np_nonzero onehot)) cs
  = Ok (flat_index n <$> cs).
Proof.
  induction 1 as [|c cs Hc _ IH]; [done|].
  cbn [collect]. rewrite IH.
  pose proof (flat_index_lt n c Hc) as Hlt.
  rewrite flatten_state_in, bind_Ok_l by done.
  by rewrite np_nonzero_one_hot by done.
Qed.

Lemma open_cells_to_indices_witness :
  collect (fun e => onehot ← flatten_state e 3 (3 * 3); the_only (np_nonzero onehot))
          [(0, 1)%Z; (2, 2)%Z]
  = Ok (flat_index 3 <$> [(0, 1)%Z; (2, 2)%Z]).
Proof.
  apply (open_cells_to_indices 3 [(0, 1)%Z; (2, 2)%Z]).
  repeat constructor; simpl; lia.
Defined.

(** ** The initial distribution (lines 61-62) *)

Lemma np_set_indices_Ok (idxs : list nat) (x : Q) (v : list Q) :
  Forall (fun i => i < length v) idxs ->
  exists v', np_set_indices idxs x v = Ok v' /\ length v' = length v /\
    forall i, vget v' i = if bool_decide (i ∈ idxs) then x else vget v i.
Proof.
  unfold np_set_indices. revert v.
  induction idxs as [|j idxs IH]; intros v Hf.
  - exists v. split; [done|]. split; [done|]. intros i.
    by rewrite bool_decide_eq_false_2 by apply not_elem_of_nil.
  - inversion Hf as [|? ? Hj Hrest]; subst. cbn [for_each].
    apply Nat.ltb_lt in Hj as Hjb. rewrite Hjb, bind_Ok_l.
    destruct (IH (<[j := x]> v)) as (v' & Hv' & Hlen & Hget).
    { by rewrite length_insert. }
    exists v'. split; [exact Hv'|]. split; [by rewrite Hlen, length_insert|].
    intros i. rewrite Hget.
    destruct (decide (i ∈ idxs)) as [Hi|Hi].
    + rewrite bool_decide_eq_true_2 by done.
      by rewrite bool_decide_eq_true_2 by (by right).
    + rewrite bool_decide_eq_false_2 by done.
      rewrite vget_insert by done.
      destruct (Nat.eqb_spec i j) as [->|Hne].
      * by rewrite bool_decide_eq_true_2 by left.
      * rewrite bool_decide_eq_false_2; [done|].
        intros [?|?]%elem_of_cons; done.
Qed.

Lemma np_sum_set_indices (idxs : list nat) (x : Q) (v v' : list Q) :
  NoDup idxs -> np_set_indices idxs x v = Ok v' ->
  (np_sum v' == np_sum v - np_sum (vget v <$> idxs)
               + inject_Z (Z.of_nat (length idxs)) * x)%Q.
Proof.
  unfold np_set_indices. intros Hnd. revert v.
  induction Hnd as [|j idxs Hj Hnd IH]; intros v H.
  - inversion H; subst v'. simpl. ring.
  - cbn [for_each] in H. destruct (j <? length v) eqn:Hjb; [|discriminate].
    rewrite bind_Ok_l in H. apply Nat.ltb_lt in Hjb.
    rewrite (IH _ H). rewrite np_sum_insert by done.
    assert (Hsame : vget (<[j := x]> v) <$> idxs = vget v <$> idxs).
    { apply list_fmap_ext. intros k i Hi. apply vget_insert_ne.
      intros ->. apply Hj. by apply list_elem_of_lookup_2 in Hi. }
    rewrite Hsame. cbn [fmap list_fmap np_sum foldr length].
    rewrite Nat2Z.inj_succ. unfold Z.succ. rewrite inject_Z_plus.
    change (np_sum (vget v <$> idxs)) with (foldr Qplus 0%Q (vget v <$> idxs)).
    ring.
Qed.

Lemma np_sum_one_hot (n i : nat) : i < n -> (np_sum (one_hot n i) == 1)%Q.
Proof.
  intros Hi. unfold one_hot.
  rewrite np_sum_insert by (unfold np_zeros; by rewrite length_replicate).
  rewrite np_sum_zeros, vget_zeros. ring.
Qed.

Lemma np_sum_indicator (k : nat) (idxs : list nat) :
  NoDup idxs ->
  (np_sum ((fun j => indicator (j =? k)) <$> idxs)
   == indicator (bool_decide (k ∈ idxs)))%Q.
Proof.
  induction 1 as [|j idxs Hj Hnd IH].
  - rewrite bool_decide_eq_false_2 by apply not_elem_of_nil. reflexivity.
  - cbn [fmap list_fmap np_sum foldr].
    change (foldr Qplus 0%Q ((fun j => indicator (j =? k)) <$> idxs))
      with (np_sum ((fun j => indicator (j =? k)) <$> idxs)).
    rewrite IH. destruct (Nat.eqb_spec j k) as [->|Hne].
    + rewrite (bool_decide_eq_false_2 (k ∈ idxs)) by done.
      rewrite (bool_decide_eq_true_2 (k ∈ k :: idxs)) by left. reflexivity.
    + destruct (decide (k ∈ idxs)) as [Hk|Hk].
      * rewrite (bool_decide_eq_true_2 (k ∈ idxs)) by done.
        rewrite (bool_decide_eq_true_2 (k ∈ j :: idxs)) by (by right). reflexivity.
      * rewrite (bool_decide_eq_false_2 (k ∈ idxs)) by done.
        rewrite (bool_decide_eq_false_2 (k ∈ j :: idxs)); [reflexivity|].
        intros [?|?]%elem_of_cons; [congruence | done].
Qed.

Lemma flat_index_one_one (n : nat) : flat_index n (1, 1)%Z = n + 1.
Proof. unfold flat_index. simpl. lia. Qed.

(** Lines 61-62: for a grid of size at least 2 and a non-empty list of
    indices, the vector holds [1/len(empty)] at the listed indices; every
    other entry is the one of the one-hot vector of (1,1) the code starts
    from: 1 at the index of (1,1), 0 elsewhere. *)
Theorem initial_distribution_values (empty : list nat) (n total : nat) :
  2 <= n -> n * n <= total -> empty <> [] ->
  Forall (fun i => i < total) empty ->
  exists p, initial_distribution empty n total = Ok p /\ length p = total /\
    forall i, i < total ->
      vget p i = if bool_decide (i ∈ empty)
                 then (1 / inject_Z (Z.of_nat (length empty)))%Q
                 else indicator (i =? n + 1).
Proof.
  intros Hn Ht Hne Hf. unfold initial_distribution.
  assert (Hin : in_bounds n (1, 1)%Z) by (unfold in_bounds; simpl; lia).
  assert (Hlt : n + 1 < total) by nia.
  rewrite flatten_state_in by (rewrite ?flat_index_one_one; done).
  rewrite bind_Ok_l, flat_index_one_one.
  destruct empty as [|e empty]; [done|]. cbn [length Nat.eqb].
  destruct (np_set_indices_Ok (e :: empty)
              (1 / inject_Z (Z.of_nat (length (e :: empty))))%Q
              (one_hot total (n + 1))) as (p & Hp & Hlen & Hget).
  { by rewrite length_one_hot. }
  exists p. split; [exact Hp|]. split; [by rewrite Hlen, length_one_hot|].
  intros i Hi. rewrite Hget. by rewrite vget_one_hot by done.
Qed.

Lemma initial_distribution_values_witness :
  exists p, initial_distribution [0; 2] 2 4 = Ok p /\ length p = 4 /\
    forall i, i < 4 ->
      vget p i = if bool_decide (i ∈ [0; 2])
                 then (1 / inject_Z (Z.of_nat (length [0; 2])))%Q
                 else indicator (i =? 2 + 1).
Proof.
  apply (initial_distribution_values [0; 2] 2 4); [lia | lia | discriminate |].
  repeat constructor; lia.
Defined.

(** Lines 61-62: the vector is a probability distribution exactly when the
    cell (1,1) is among the listed indices; otherwise the 1 of the one-hot
    vector stays and the entries sum to 2. *)
Theorem initial_distribution_sum (empty : list nat) (n total : nat) (p : list Q) :
  2 <= n -> n * n <= total -> NoDup empty ->
  initial_distribution empty n total = Ok p ->
  (np_sum p == if bool_decide ((n + 1)%nat ∈ empty) then 1 else 2)%Q.
Proof.
  intros Hn Ht Hnd H. unfold initial_distribution in H.
  assert (Hin : in_bounds n (1, 1)%Z) by (unfold in_bounds; simpl; lia).
  assert (Hlt : n + 1 < total) by nia.
  rewrite flatten_state_in in H by (rewrite ?flat_index_one_one; done).
  rewrite bind_Ok_l, flat_index_one_one in H.
  destruct (length empty =? 0) eqn:Hlen; [discriminate|].
  apply Nat.eqb_neq in Hlen.
  rewrite (np_sum_set_indices _ _ _ _ Hnd H).
  rewrite np_sum_one_hot by done.
  assert (Hsame : vget (one_hot total (n + 1)) <$> empty
                  = (fun j => indicator (j =? n + 1)) <$> empty).
  { apply list_fmap_ext. intros k i _. by apply vget_one_hot. }
  rewrite Hsame, (np_sum_indicator (n + 1) empty Hnd).
  assert (Hq : ~ (inject_Z (Z.of_nat (length empty)) == 0)%Q).
  { change 0%Q with (inject_Z 0). rewrite inject_Z_injective. lia. }
  destruct (bool_decide (n + 1 ∈ empty)); simpl; field; exact Hq.
Qed.

Lemma initial_distribution_sum_witness :
  (np_sum [1 # 2; 0; 1 # 2; 1]%Q
   == if bool_decide ((2 + 1)%nat ∈ [0; 2]%nat) then 1 else 2)%Q.
Proof.
  apply (initial_distribution_sum [0; 2] 2 4); [lia | lia | | reflexivity].
  repeat constructor; intros H; repeat (apply elem_of_cons in H as [H|H]; try lia);
    by apply elem_of_nil in H.
Defined.

(** Lines 61-62: a maze without open cell makes the construction of [p0]
    fail with [ZeroDivisionError] at [1 / len(empty)]. *)
Theorem initial_distribution_no_open_cell (n total : nat) :
  2 <= n -> n * n <= total ->
  initial_distribution [] n total = Raise ZeroDivisionError.
Proof.
  intros Hn Ht. unfold initial_distribution.
  assert (Hin : in_bounds n (1, 1)%Z) by (unfold in_bounds; simpl; lia).
  rewrite flatten_state_in by (rewrite ?flat_index_one_one; done || nia).
  done.
Qed.

Lemma initial_distribution_no_open_cell_witness :
  initial_distribution [] 2 4 = Raise ZeroDivisionError.
Proof. apply (initial_distribution_no_open_cell 2 4); lia. Defined.

(** ** [set_current_state_to] and the state coder (lines 83-93) *)

(** After [set_current_state_to(coord)] on an object without absorbing
    state, decoding the current state gives [coord] back, while
    [human_state] still holds its old value. *)
Theorem set_current_state_to_decodes (self : GridWorldMDP) (c : coord) :
  has_absorbing_state self = false -> size self * size self <= num_states self ->
  in_bounds (size self) c ->
  exists v self', set_current_state_to c self = Ok (v, self') /\
    current_state self' = Some v /\
    mdp_unflatten_state self' v = Ok (Some c) /\
    human_state self' = human_state self.
Proof.
  intros Habs Hnum Hc. pose proof (flat_index_lt _ c Hc) as Hlt.
  assert (Hn : 0 < size self) by (destruct Hc; lia).
  assert (Hlt' : flat_index (size self) c < num_states self) by lia.
  exists (one_hot (num_states self) (flat_index (size self) c)).
  exists (set_current_state (one_hot (num_states self) (flat_index (size self) c)) self).
  split; [|split; [done|split; [|done]]].
  - unfold set_current_state_to, mdp_flatten_state, base_set_current_state_to.
    rewrite flatten_state_in, bind_Ok_l by done.
    rewrite np_argmax_one_hot, bind_Ok_l by done.
    apply Nat.ltb_lt in Hlt'. by rewrite Hlt'.
  - unfold mdp_unflatten_state. cbn [set_current_state size has_absorbing_state].
    rewrite Habs, unflatten_one_hot by done.
    by rewrite flat_index_div, flat_index_mod, <- surjective_pairing by done.
Qed.

Lemma set_current_state_to_decodes_witness :
  let self := mkMDP [] [] 0 [] [] 0 4 None 2 (Some (0, 0)%Z) false in
  exists v self', set_current_state_to (1, 0)%Z self = Ok (v, self') /\
    current_state self' = Some v /\
    mdp_unflatten_state self' v = Ok (Some (1, 0)%Z) /\
    human_state self' = human_state self.
Proof.
  intros self.
  apply (set_current_state_to_decodes self (1, 0)%Z);
    [reflexivity | simpl; lia | unfold in_bounds; simpl; lia].
Defined.

(** ** [plot_sa] (lines 95-154) *)

Lemma length_mesh_x (nr nc : nat) : length (mesh_x nr nc) = nc * nr.
Proof.
  unfold mesh_x. induction nc as [|nc IH]; [done|].
  cbn [replicate concat]. rewrite length_app, IH, length_seq. lia.
Qed.

Lemma length_mesh_y (nr nc : nat) : length (mesh_y nr nc) = nc * nr.
Proof.
  unfold mesh_y. induction nc as [|nc IH]; [done|].
  rewrite seq_S, fmap_app, concat_app, length_app, IH.
  cbn [fmap list_fmap concat]. rewrite app_nil_r, length_replicate. lia.
Qed.

Lemma mesh_x_table (nr nc : nat) :
  mesh_x nr nc = (fun k => k mod nr) <$> seq 0 (nc * nr).
Proof.
  unfold mesh_x. induction nc as [|nc IH]; [done|].
  cbn [replicate concat]. rewrite IH.
  replace (S nc * nr) with (nr + nc * nr) by lia.
  rewrite seq_app, fmap_app. f_equal.
  - apply list_eq. intros i. rewrite list_lookup_fmap.
    destruct (seq 0 nr !! i) as [k|] eqn:E; [|done]. simpl.
    apply lookup_seq in E as [-> Hi]. simpl. by rewrite Nat.mod_small.
  - replace (seq (0 + nr) (nc * nr)) with (Nat.add nr <$> seq 0 (nc * nr))
      by (rewrite fmap_add_seq; f_equal; lia).
    rewrite <- list_fmap_compose. apply list_fmap_ext. intros _ k _. simpl.
    destruct nr as [|nr']; [done|].
    rewrite (Nat.add_comm (S nr') k).
    rewrite <- (Nat.Div0.mod_add k 1 (S nr')). f_equal. lia.
Qed.

Lemma mesh_y_table (nr nc : nat) :
  mesh_y nr nc = (fun k => k / nr) <$> seq 0 (nc * nr).
Proof.
  unfold mesh_y. induction nc as [|nc IH]; [done|].
  rewrite seq_S, fmap_app, concat_app, IH.
  replace (S nc * nr) with (nc * nr + nr) by lia.
  rewrite seq_app, fmap_app. f_equal.
  cbn [fmap list_fmap concat]. rewrite app_nil_r.
  apply list_eq. intros i. rewrite list_lookup_fmap.
  destruct (Nat.lt_ge_cases i nr) as [Hi|Hi].
  - rewrite lookup_replicate_2 by done.
    rewrite (lookup_seq_lt _ _ _ Hi). simpl. f_equal.
    apply (Nat.div_unique _ nr nc i); lia.
  - rewrite !lookup_ge_None_2 by (rewrite ?length_replicate, ?length_seq; lia).
    done.
Qed.

Lemma column_table (a : nat) (rows : list (list Q)) :
  column a rows = (fun s => entry rows s a) <$> seq 0 (length rows).
Proof.
  apply list_eq. intros i. unfold column. rewrite !list_lookup_fmap.
  destruct (Nat.lt_ge_cases i (length rows)) as [Hi|Hi].
  - rewrite (lookup_seq_lt _ _ _ Hi). simpl. unfold entry.
    destruct (lookup_lt_is_Some_2 rows i Hi) as [row ->]. done.
  - rewrite !lookup_ge_None_2 by (rewrite ?length_seq; lia). done.
Qed.

Lemma select_fmap {S A : Type} (f : S -> bool) (g : S -> A) (l : list S) :
  select (f <$> l) (g <$> l) = g <$> filter (fun s => f s = true) l.
Proof.
  induction l as [|s l IH]; [done|].
  cbn [fmap list_fmap select]. rewrite filter_cons.
  destruct (f s) eqn:E.
  - rewrite decide_True by done. cbn [fmap list_fmap]. by f_equal.
  - rewrite decide_False by congruence. exact IH.
Qed.

Lemma np_mask_table {S A : Type} (f : S -> bool) (g : S -> A) (l : list S) :
  np_mask (f <$> l) (g <$> l) = Ok (g <$> filter (fun s => f s = true) l).
Proof.
  unfold np_mask. rewrite !length_fmap, Nat.eqb_refl, orb_true_r.
  by rewrite select_fmap.
Qed.

Lemma np_mask_mismatch {A : Type} (mask : list bool) (v : list A) :
  mask <> [] -> length mask <> length v -> np_mask mask v = Raise IndexError.
Proof.
  intros Hm H. unfold np_mask. apply Nat.eqb_neq in H. rewrite H.
  by destruct mask.
Qed.

Lemma np_mask_nil {A : Type} (v : list A) : np_mask [] v = Ok [].
Proof. reflexivity. Qed.

Lemma filter_none {A : Type} (P : A -> Prop) `{!forall x, Decision (P x)} (l : list A) :
  (forall x, ~ P x) -> filter P l = [].
Proof.
  intros Hnone. induction l as [|x l IH]; [done|].
  rewrite filter_cons, decide_False by apply Hnone. exact IH.
Qed.

(** Over a table without rows no state has an arrow. *)
Lemma arrows_nil (n N : nat) (c : color) (ba : (Q * Q) * nat) :
  arrows n N [] c ba = mkQuiver [] [] [] [] c.
Proof.
  unfold arrows. cbv zeta. rewrite filter_none; [reflexivity|].
  intros s. unfold entry. rewrite lookup_nil. by destruct c.
Qed.

Lemma plot_action_table (n N : nat) (rows : list (list Q))
    (ba : (Q * Q) * nat) (acc : list quiver_call) :
  length rows = N ->
  plot_action ((fun k => k mod n) <$> seq 0 N) ((fun k => k / n) <$> seq 0 N) rows ba acc
  = Ok (acc ++ [arrows n N rows Green ba; arrows n N rows Red ba]).
Proof.
  intros HN. destruct ba as [base a]. unfold plot_action. cbv zeta.
  rewrite column_table, HN. rewrite <- !list_fmap_compose. unfold compose.
  set (d := fun s => entry rows s a).
  rewrite (np_mask_table (fun s => Qlt_bool 0 (d s)) (fun k => k mod n)), bind_Ok_l.
  rewrite (np_mask_table (fun s => Qlt_bool 0 (d s)) (fun k => k / n)), bind_Ok_l.
  rewrite (np_mask_table (fun s => Qlt_bool 0 (d s)) (fun s => fst base * d s)%Q),
    bind_Ok_l.
  rewrite (np_mask_table (fun s => Qlt_bool 0 (d s)) (fun s => snd base * d s)%Q),
    bind_Ok_l.
  rewrite (np_mask_table (fun s => Qlt_bool (d s) 0) (fun k => k mod n)), bind_Ok_l.
  rewrite (np_mask_table (fun s => Qlt_bool (d s) 0) (fun k => k / n)), bind_Ok_l.
  rewrite (np_mask_table (fun s => Qlt_bool (d s) 0) (fun s => fst base * d s)%Q),
    bind_Ok_l.
  rewrite (np_mask_table (fun s => Qlt_bool (d s) 0) (fun s => snd base * d s)%Q),
    bind_Ok_l.
  rewrite <- !list_fmap_compose, <- app_assoc. reflexivity.
Qed.

Lemma plot_action_mismatch (x y : list nat) (rows : list (list Q))
    (ba : (Q * Q) * nat) (acc : list quiver_call) :
  rows <> [] -> length rows <> length x ->
  plot_action x y rows ba acc = Raise IndexError.
Proof.
  intros Hr H. destruct ba as [base a]. unfold plot_action. cbv zeta.
  rewrite (np_mask_mismatch ((fun d => Qlt_bool 0 d) <$> column a rows) x);
    [reflexivity| |].
  - by destruct rows.
  - unfold column. by rewrite !length_fmap.
Qed.

(** A table without rows gives masks of length 0: both calls of every
    action are issued, with nothing to draw. *)
Lemma plot_action_nil (n N : nat) (x y : list nat)
    (ba : (Q * Q) * nat) (acc : list quiver_call) :
  plot_action x y [] ba acc
  = Ok (acc ++ [arrows n N [] Green ba; arrows n N [] Red ba]).
Proof.
  rewrite !arrows_nil. destruct ba as [base a]. unfold plot_action. cbv zeta.
  cbn [column fmap list_fmap]. rewrite !np_mask_nil, !bind_Ok_l.
  cbn [fmap list_fmap]. by rewrite <- app_assoc.
Qed.

Lemma for_each_plot_action_nil (n N : nat) (x y : list nat)
    (bas : list ((Q * Q) * nat)) (acc : list quiver_call) :
  for_each (plot_action x y []) bas acc
  = Ok (acc ++ (bas ≫= fun ba => [arrows n N [] Green ba; arrows n N [] Red ba])).
Proof.
  revert acc. induction bas as [|ba bas IH]; intros acc.
  - cbn. by rewrite app_nil_r.
  - cbn [for_each]. rewrite (plot_action_nil n N), bind_Ok_l.
    rewrite IH. cbn [mbind list_bind]. by rewrite <- app_assoc.
Qed.

Lemma for_each_plot_action (n N : nat) (rows : list (list Q))
    (bas : list ((Q * Q) * nat)) (acc : list quiver_call) :
  length rows = N ->
  for_each (plot_action ((fun k => k mod n) <$> seq 0 N)
                        ((fun k => k / n) <$> seq 0 N) rows) bas acc
  = Ok (acc ++ (bas ≫= fun ba => [arrows n N rows Green ba; arrows n N rows Red ba])).
Proof.
  intros HN. revert acc. induction bas as [|ba bas IH]; intros acc.
  - cbn. by rewrite app_nil_r.
  - cbn [for_each]. rewrite plot_action_table, bind_Ok_l by done.
    rewrite IH. cbn [mbind list_bind]. by rewrite <- app_assoc.
Qed.

Lemma direction_4 :
  direction 4 = [(-1, 0)%Q; (1, 0)%Q; (0, 1)%Q; (0, -1)%Q].
Proof. reflexivity. Qed.

Lemma length_scale_rows (scaled : Q -> Q -> Q) (sc : Q) (rows : list (list Q)) :
  length (scale_rows scaled sc rows) = length rows.
Proof. unfold scale_rows. by rewrite length_fmap. Qed.

Lemma np_abs_max_nil : np_abs_max [] = Raise ValueError.
Proof. reflexivity. Qed.

Lemma np_abs_max_empty (rows : list (list Q)) :
  concat rows = [] -> np_abs_max rows = Raise ValueError.
Proof. intros H. unfold np_abs_max. by rewrite H. Qed.

Lemma np_abs_max_nonempty (rows : list (list Q)) :
  concat rows <> [] -> exists sc, np_abs_max rows = Ok sc.
Proof.
  intros H. unfold np_abs_max. destruct (concat rows) as [|x xs]; [done|].
  cbn [fmap list_fmap]. eauto.
Qed.

Section PlotFacts.

Variable format_4f : Q -> string.
Variable scaled : Q -> Q -> Q.
Variable get_lim : Q * Q -> Q * Q.

Lemma for_each_directions (n : nat) (rows : list (list Q)) :
  for_each (plot_action (mesh_x n n) (mesh_y n n) rows)
           (zip (direction 4) (seq 0 4)) []
  = if (length rows =? 0) || (length rows =? n * n)
    then Ok (zip (direction 4) (seq 0 4)
               ≫= fun ba => [arrows n (n * n) rows Green ba;
                             arrows n (n * n) rows Red ba])
    else Raise IndexError.
Proof.
  destruct rows as [|r rows'].
  - exact (for_each_plot_action_nil n (n * n) _ _ _ []).
  - change (length (r :: rows') =? 0) with false. cbn [orb].
    destruct (Nat.eqb_spec (length (r :: rows')) (n * n)) as [HN|HN].
    + rewrite mesh_x_table, mesh_y_table.
      exact (for_each_plot_action n (n * n) (r :: rows') _ [] HN).
    + rewrite direction_4. cbn [seq zip zip_with for_each].
      rewrite plot_action_mismatch; [reflexivity|done|].
      by rewrite length_mesh_x.
Qed.

(** What a call of [plot_sa] that returns has drawn: the table has four
    columns and one row per grid cell, or no row at all; there is one
    green and one red [quiver] call for each action in turn. *)
Lemma plot_sa_quivers (self : GridWorldMDP) (title : string) (data : ndarray2)
    (scale_data : bool) (frame : Z * Z * Z * Z) (tag : string) (ax : axes) :
  plot_sa format_4f scaled get_lim self title data scale_data frame = Done (tag, ax) ->
  arr_ncols data = 4 /\
  (length (arr_rows data) = size self * size self \/
   (arr_rows data = [] /\ scale_data = false)) /\
  ax_quivers ax
  = zip (direction 4) (seq 0 4)
      ≫= fun ba =>
           [arrows (size self) (size self * size self)
                   (drawn_rows scaled scale_data (arr_rows data)) Green ba;
            arrows (size self) (size self * size self)
                   (drawn_rows scaled scale_data (arr_rows data)) Red ba].
Proof.
  unfold plot_sa, drawn_rows. intros H.
  destruct frame as [[[x0 x1] y0] y1].
  destruct scale_data.
  - destruct (np_abs_max (arr_rows data)) as [sc|e] eqn:E; [|discriminate].
    rewrite bind_Ok_l in H. cbv zeta in H.
    destruct (Nat.eqb_spec (arr_ncols data) 4) as [Hc|Hc]; [|discriminate].
    cbn [negb] in H. rewrite Hc, for_each_directions, length_scale_rows in H.
    destruct ((length (arr_rows data) =? 0)
              || (length (arr_rows data) =? size self * size self)) eqn:Eb;
      [|discriminate].
    inversion H; subst tag ax. cbn [ax_quivers].
    split; [done|]. split; [|done]. left.
    apply orb_true_iff in Eb as [E0|E1]; [|by apply Nat.eqb_eq].
    apply Nat.eqb_eq, nil_length_inv in E0. rewrite E0, np_abs_max_nil in E.
    discriminate.
  - cbv zeta in H.
    destruct (Nat.eqb_spec (arr_ncols data) 4) as [Hc|Hc]; [|discriminate].
    cbn [negb] in H. rewrite Hc, for_each_directions in H.
    destruct ((length (arr_rows data) =? 0)
              || (length (arr_rows data) =? size self * size self)) eqn:Eb;
      [|discriminate].
    inversion H; subst tag ax. cbn [ax_quivers].
    split; [done|]. split; [|done].
    apply orb_true_iff in Eb as [E0|E1].
    + right. by apply Nat.eqb_eq, nil_length_inv in E0.
    + left. by apply Nat.eqb_eq.
Qed.

(** A successful call of [plot_sa] returns the tag ["plots/" + title],
    needs a table with four columns and one row per grid cell (or, when it
    is not scaled, no row at all: masks of length 0 fit every grid), and
    issues, for each action in turn, one green and one red [quiver] call:
    green for the states with a positive entry, red for those with a
    negative entry, each state at column [s mod size] and row [s / size]
    with the entry times the direction of the action as vector, negated
    for red. *)
Theorem plot_sa_draws (self : GridWorldMDP) (title : string) (data : ndarray2)
    (scale_data : bool) (frame : Z * Z * Z * Z) (tag : string) (ax : axes) :
  plot_sa format_4f scaled get_lim self title data scale_data frame = Done (tag, ax) ->
  tag = ("plots/" ++ title)%string /\
  arr_ncols data = 4 /\
  (length (arr_rows data) = size self * size self \/
   (arr_rows data = [] /\ scale_data = false)) /\
  ax_quivers ax
  = zip (direction 4) (seq 0 4)
      ≫= fun ba =>
           [arrows (size self) (size self * size self)
                   (drawn_rows scaled scale_data (arr_rows data)) Green ba;
            arrows (size self) (size self * size self)
                   (drawn_rows scaled scale_data (arr_rows data)) Red ba].
Proof.
  intros H. split; [|exact (plot_sa_quivers _ _ _ _ _ _ _ H)].
  unfold plot_sa in H. destruct frame as [[[x0 x1] y0] y1].
  destruct (if scale_data then _ else _) as [[sc rows]|e]; [|discriminate].
  cbv zeta in H.
  destruct (negb (arr_ncols data =? 4)); [discriminate|].
  destruct (for_each _ _ []) as [quivers|e]; [|discriminate].
  by inversion H.
Qed.

End PlotFacts.

Lemma plot_sa_draws_witness :
  let self := mkMDP [] [] 0 [] [] 0 4 None 2 None false in
  let data := mkArray [[1; 0; 0; -2]; [0; 0; 0; 0]; [0; 1 # 2; 0; 0]; [0; 0; -1; 0]]%Q 4 in
  let scaled := fun x sc : Q => (x / (sc * (11 # 10)))%Q in
  exists tag ax,
    plot_sa (fun _ => EmptyString) scaled (fun l => l) self "t" data false (0, 0, 0, 0)%Z
    = Done (tag, ax) /\
    tag = ("plots/" ++ "t")%string /\
    arr_ncols data = 4 /\
    (length (arr_rows data) = size self * size self \/
     (arr_rows data = [] /\ false = false)) /\
    ax_quivers ax
    = zip (direction 4) (seq 0 4)
        ≫= fun ba =>
             [arrows (size self) (size self * size self)
                     (drawn_rows scaled false (arr_rows data)) Green ba;
              arrows (size self) (size self * size self)
                     (drawn_rows scaled false (arr_rows data)) Red ba].
Proof.
  intros self data scaled. eexists _, _. split; [vm_compute; reflexivity|].
  eapply (plot_sa_draws (fun _ => EmptyString) scaled (fun l => l) self "t" data false
                        (0, 0, 0, 0)%Z).
  vm_compute. reflexivity.
Defined.

(** [plot_sa] stops at its [assert] when the table has another number of
    columns than 4, unless scaling a table without entries has already
    raised [ValueError]. *)
Theorem plot_sa_assertion (format_4f : Q -> string) (scaled : Q -> Q -> Q)
    (get_lim : Q * Q -> Q * Q) (self : GridWorldMDP)
    (title : string) (data : ndarray2) (scale_data : bool) (frame : Z * Z * Z * Z) :
  arr_ncols data <> 4 ->
  plot_sa format_4f scaled get_lim self title data scale_data frame
  = if scale_data && bool_decide (concat (arr_rows data) = [])
    then Fail ValueError else AssertionFailed.
Proof.
  intros Hc. unfold plot_sa. apply Nat.eqb_neq in Hc.
  destruct scale_data; cbn [andb].
  - case_bool_decide as He.
    + by rewrite np_abs_max_empty.
    + destruct (np_abs_max_nonempty _ He) as [sc ->].
      rewrite bind_Ok_l. cbv zeta. by rewrite Hc.
  - cbv zeta. by rewrite Hc.
Qed.

Lemma plot_sa_assertion_witness :
  plot_sa (fun _ => EmptyString) (fun x sc : Q => (x / (sc * (11 # 10)))%Q) (fun l => l)
          (mkMDP [] [] 0 [] [] 0 4 None 2 None false) "t"
          (mkArray [[1; 2; 3]]%Q 3) true (0, 0, 0, 0)%Z
  = if true && bool_decide (concat [[1; 2; 3]]%Q = [])
    then Fail ValueError else AssertionFailed.
Proof.
  apply (plot_sa_assertion (fun _ => EmptyString) _ _ _ "t" (mkArray [[1; 2; 3]]%Q 3)).
  simpl. lia.
Defined.

(** [plot_sa] needs one row per grid cell.  With four columns and any other
    positive number of rows (an absorbing state among them, say) the first
    boolean mask does not fit the grid and [IndexError] is raised, unless
    scaling a table without entries has already raised [ValueError].  A
    table without rows raises [ValueError] when it is scaled; when it is
    not, its masks have length 0 and fit, and the eight [quiver] calls are
    issued with nothing to draw. *)
Theorem plot_sa_row_count (format_4f : Q -> string) (scaled : Q -> Q -> Q)
    (get_lim : Q * Q -> Q * Q) (self : GridWorldMDP)
    (title : string) (data : ndarray2) (scale_data : bool) (frame : Z * Z * Z * Z) :
  arr_ncols data = 4 -> length (arr_rows data) <> size self * size self ->
  (arr_rows data <> [] ->
   plot_sa format_4f scaled get_lim self title data scale_data frame
   = if scale_data && bool_decide (concat (arr_rows data) = [])
     then Fail ValueError else Fail IndexError) /\
  (arr_rows data = [] ->
   if scale_data
   then plot_sa format_4f scaled get_lim self title data scale_data frame
        = Fail ValueError
   else exists ax,
     plot_sa format_4f scaled get_lim self title data scale_data frame
     = Done (("plots/" ++ title)%string, ax) /\
     ax_quivers ax
     = zip (direction 4) (seq 0 4)
         ≫= fun _ => [mkQuiver [] [] [] [] Green; mkQuiver [] [] [] [] Red]).
Proof.
  intros Hc HN. split.
  - intros Hr. unfold plot_sa.
    assert (Hb : (length (arr_rows data) =? 0)
                 || (length (arr_rows data) =? size self * size self) = false).
    { apply orb_false_iff. split; apply Nat.eqb_neq; [|done].
      intros H0. by apply nil_length_inv in H0. }
    destruct scale_data; cbn [andb].
    + case_bool_decide as He.
      * by rewrite np_abs_max_empty.
      * destruct (np_abs_max_nonempty _ He) as [sc ->].
        rewrite bind_Ok_l. cbv zeta. rewrite Hc. cbn [Nat.eqb negb].
        by rewrite for_each_directions, length_scale_rows, Hb.
    + cbv zeta. rewrite Hc. cbn [Nat.eqb negb].
      by rewrite for_each_directions, Hb.
  - intros Hr. unfold plot_sa. rewrite Hr. destruct scale_data.
    + by rewrite np_abs_max_nil.
    + cbv zeta. rewrite Hc. cbn [Nat.eqb negb]. rewrite for_each_directions.
      change (length (@nil (list Q)) =? 0) with true. cbn [orb].
      destruct frame as [[[x0 x1] y0] y1]. eexists. split; [reflexivity|].
      cbn [ax_quivers]. rewrite direction_4.
      cbn [seq zip zip_with mbind list_bind]. by rewrite !arrows_nil.
Qed.

Lemma plot_sa_row_count_witness :
  let scaled := fun x sc : Q => (x / (sc * (11 # 10)))%Q in
  plot_sa (fun _ => EmptyString) scaled (fun l => l)
          (mkMDP [] [] 0 [] [] 0 2 None 1 None false) "t"
          (mkArray [[1; 2; 3; 4]; [0; 0; 0; 0]]%Q 4) false (0, 0, 0, 0)%Z
  = Fail IndexError /\
  exists ax,
    plot_sa (fun _ => EmptyString) scaled (fun l => l)
            (mkMDP [] [] 0 [] [] 0 4 None 2 None false) "t"
            (mkArray [] 4) false (0, 0, 0, 0)%Z
    = Done (("plots/" ++ "t")%string, ax) /\
    ax_quivers ax
    = zip (direction 4) (seq 0 4)
        ≫= fun _ => [mkQuiver [] [] [] [] Green; mkQuiver [] [] [] [] Red].
Proof.
  intros scaled. split.
  - refine (proj1 (plot_sa_row_count (fun _ => EmptyString) scaled (fun l => l)
                     (mkMDP [] [] 0 [] [] 0 2 None 1 None false) "t"
                     (mkArray [[1; 2; 3; 4]; [0; 0; 0; 0]]%Q 4) false (0, 0, 0, 0)%Z
                     _ _) _).
    + reflexivity.
    + simpl. lia.
    + simpl. discriminate.
  - refine (proj2 (plot_sa_row_count (fun _ => EmptyString) scaled (fun l => l)
                     (mkMDP [] [] 0 [] [] 0 4 None 2 None false) "t"
                     (mkArray [] 4) false (0, 0, 0, 0)%Z _ _) _).
    + reflexivity.
    + simpl. lia.
    + reflexivity.
Defined.

(** The position at which [plot_sa] draws state [k] decodes [k]: the
    flattened mesh holds the column [k mod size] and the row [k / size],
    the coordinate that the state coder gives for the flat index [k]. *)
Theorem mesh_decodes_state (n k : nat) :
  k < n * n ->
  exists x y, mesh_x n n !! k = Some x /\ mesh_y n n !! k = Some y /\
    (Z.of_nat y, Z.of_nat x) = coord_of_index n k /\
    flat_index n (Z.of_nat y, Z.of_nat x) = k.
Proof.
  intros Hk. exists (k mod n), (k / n).
  rewrite mesh_x_table, mesh_y_table, !list_lookup_fmap.
  rewrite (lookup_seq_lt _ _ _ Hk). repeat split.
  unfold flat_index. cbn [fst snd].
  assert (Hn : n <> 0) by lia. pose proof (Nat.div_mod_eq k n). nia.
Qed.

Lemma mesh_decodes_state_witness :
  exists x y, mesh_x 3 3 !! 7 = Some x /\ mesh_y 3 3 !! 7 = Some y /\
    (Z.of_nat y, Z.of_nat x) = coord_of_index 3 7 /\
    flat_index 3 (Z.of_nat y, Z.of_nat x) = 7.
Proof. apply (mesh_decodes_state 3 7). lia. Defined.

Lemma Qlt_bool_true (a b : Q) : Qlt_bool a b = true -> (a < b)%Q.
Proof.
  unfold Qlt_bool. intros H. apply negb_true_iff in H.
  apply Qnot_le_lt. intros Hle. apply Qle_bool_iff in Hle. congruence.
Qed.

Lemma arrows_lookup (n N : nat) (rows : list (list Q)) (c : color)
    (base : Q * Q) (a j : nat) (u : Q) :
  q_u (arrows n N rows c (base, a)) !! j = Some u ->
  exists s, s < N /\
    q_x (arrows n N rows c (base, a)) !! j = Some (s mod n) /\
    q_y (arrows n N rows c (base, a)) !! j = Some (s / n) /\
    (u == Qabs (entry rows s a) * fst base)%Q /\
    (exists v, q_v (arrows n N rows c (base, a)) !! j = Some v /\
               (v == Qabs (entry rows s a) * snd base)%Q) /\
    match c with
    | Green => (0 < entry rows s a)%Q
    | Red => (entry rows s a < 0)%Q
    end.
Proof.
  unfold arrows. cbn [q_u q_x q_y q_v fst snd]. intros Hu.
  rewrite list_lookup_fmap in Hu.
  destruct (filter _ (seq 0 N) !! j) as [s|] eqn:Es; [|discriminate].
  inversion Hu; subst u. exists s.
  assert (Hs : s ∈ filter (fun s => match c with
                                    | Green => Qlt_bool 0 (entry rows s a)
                                    | Red => Qlt_bool (entry rows s a) 0
                                    end = true) (seq 0 N))
    by (apply list_elem_of_lookup; eauto).
  apply list_elem_of_filter in Hs as [Hkeep Hseq].
  apply list_elem_of_In, in_seq in Hseq.
  rewrite !list_lookup_fmap, Es. cbn [fmap option_fmap option_map].
  split; [lia|]. split; [done|]. split; [done|].
  destruct c; apply Qlt_bool_true in Hkeep.
  - assert (Ha : (Qabs (entry rows s a) == entry rows s a)%Q)
      by (apply Qabs_pos; lra).
    split; [rewrite Ha; ring|]. split; [|exact Hkeep].
    eexists. split; [reflexivity|]. rewrite Ha. ring.
  - assert (Ha : (Qabs (entry rows s a) == - entry rows s a)%Q)
      by (apply Qabs_neg; lra).
    split; [rewrite Ha; ring|]. split; [|exact Hkeep].
    eexists. split; [reflexivity|]. rewrite Ha. ring.
Qed.

(** Every arrow that [plot_sa] draws belongs to one action [a] and one
    state [s]: it sits at column [s mod size] and row [s / size] and its
    vector is the absolute value of the drawn entry of [(s, a)] times the
    direction of [a]; the entry is positive for a green arrow and negative
    for a red one, so the colour alone carries the sign. *)
Theorem plot_sa_arrow (format_4f : Q -> string) (scaled : Q -> Q -> Q)
    (get_lim : Q * Q -> Q * Q) (self : GridWorldMDP)
    (title : string) (data : ndarray2) (scale_data : bool) (frame : Z * Z * Z * Z)
    (tag : string) (ax : axes) (call : quiver_call) (j : nat) (u : Q) :
  plot_sa format_4f scaled get_lim self title data scale_data frame = Done (tag, ax) ->
  call ∈ ax_quivers ax -> q_u call !! j = Some u ->
  exists a base s,
    direction 4 !! a = Some base /\ s < size self * size self /\
    q_x call !! j = Some (s mod size self) /\
    q_y call !! j = Some (s / size self) /\
    (u == Qabs (entry (drawn_rows scaled scale_data (arr_rows data)) s a) * fst base)%Q /\
    (exists v, q_v call !! j = Some v /\
       (v == Qabs (entry (drawn_rows scaled scale_data (arr_rows data)) s a)
             * snd base)%Q) /\
    match q_color call with
    | Green => (0 < entry (drawn_rows scaled scale_data (arr_rows data)) s a)%Q
    | Red => (entry (drawn_rows scaled scale_data (arr_rows data)) s a < 0)%Q
    end.
Proof.
  intros H Hcall Hu. apply plot_sa_quivers in H as (_ & _ & Hq).
  rewrite Hq in Hcall.
  apply list_elem_of_bind in Hcall as ([base a] & Hcall & Hba).
  assert (Hdir : direction 4 !! a = Some base).
  { apply list_elem_of_lookup in Hba as [i Hi].
    apply lookup_zip_with_Some in Hi as (b & k & Heq & Hb & Hk).
    inversion Heq; subst b k. apply lookup_seq in Hk as [-> _]. exact Hb. }
  exists a, base.
  apply elem_of_cons in Hcall as [->|Hcall].
  - destruct (arrows_lookup _ _ _ Green base a j u Hu) as (s & Hs & Hx & Hy & Hu' & Hv & Hc).
    exists s. repeat (split; [assumption|]). exact Hc.
  - apply list_elem_of_singleton in Hcall as ->.
    destruct (arrows_lookup _ _ _ Red base a j u Hu) as (s & Hs & Hx & Hy & Hu' & Hv & Hc).
    exists s. repeat (split; [assumption|]). exact Hc.
Qed.

Lemma plot_sa_arrow_witness :
  let data := [[1; 0; 0; -2]; [0; 0; 0; 0]; [0; 1 # 2; 0; 0]; [0; 0; -1; 0]]%Q in
  let call := mkQuiver [0] [0] [0%Q] [-2%Q] Red in
  let scaled := fun x sc : Q => (x / (sc * (11 # 10)))%Q in
  exists a base s,
    direction 4 !! a = Some base /\ s < 2 * 2 /\
    q_x call !! 0 = Some (s mod 2) /\
    q_y call !! 0 = Some (s / 2) /\
    (0 == Qabs (entry (drawn_rows scaled false data) s a) * fst base)%Q /\
    (exists v, q_v call !! 0 = Some v /\
       (v == Qabs (entry (drawn_rows scaled false data) s a) * snd base)%Q) /\
    match q_color call with
    | Green => (0 < entry (drawn_rows scaled false data) s a)%Q
    | Red => (entry (drawn_rows scaled false data) s a < 0)%Q
    end.
Proof.
  intros data call scaled.
  eapply (plot_sa_arrow (fun _ => EmptyString) scaled (fun l => l)
            (mkMDP [] [] 0 [] [] 0 4 None 2 None false) "t"
            (mkArray data 4) false (0, 0, 0, 0)%Z _ _ call 0 0%Q).
  - vm_compute. reflexivity.
  - cbn [ax_quivers]. do 7 apply list_elem_of_further. apply list_elem_of_here.
  - reflexivity.
Defined.

(** ** Ticks and limits of [plot_sa] *)



